(** * StockHub backend: token store, Upstox feed connection and /live relay

    A shallow embedding of [server.js] and [token_store.js].  The module-level
    variables of [server.js] and the objects they point to (the SQLite table,
    the WebSocket objects, the pending timeouts and HTTP requests) form a
    record [World]; every function and every event handler of the source is a
    computation over it that may throw and that writes the calls it makes to
    the outside (database statements, socket sends, timers, logs) to a trace. *)

From Stdlib Require Import ZArith List String Bool Lia.
From stdpp Require Import base list strings.
Import ListNotations.
Local Open Scope Z_scope.
Local Open Scope string_scope.
Local Open Scope list_scope.

(** ** JavaScript values *)

(** What [JSON.parse] returns, plus [undefined] for a property that is not
    there.  The handlers only test a number for being zero and copy it, so
    numbers are carried as integers. *)
#[warnings="-register-all"]
Inductive JValue : Type :=
| JUndefined
| JNull
| JBool (b : bool)
| JNum (n : Z)
| JStr (s : string)
| JArr (items : list JValue)
| JObj (fields : list (string * JValue)).

(** [!!v] of the language: falsy values are undefined, null, false, 0 and
    the empty string. *)
Definition truthy (v : JValue) : bool :=
  match v with
  | JUndefined | JNull => false
  | JBool b => b
  | JNum n => negb (Z.eqb n 0)
  | JStr s => negb (String.eqb s "")
  | JArr _ | JObj _ => true
  end.

Definition truthy_str (s : string) : bool := negb (String.eqb s "").

(** [s || d] on strings and [n || d] on an optional number. *)
Definition or_str (s d : string) : string := if truthy_str s then s else d.

Definition or_num (n : option Z) (d : Z) : Z :=
  match n with
  | Some k => if Z.eqb k 0 then d else k
  | None => d
  end.

Fixpoint assoc (k : string) (l : list (string * JValue)) : JValue :=
  match l with
  | [] => JUndefined
  | (k', v) :: r => if String.eqb k k' then v else assoc k r
  end.

(** [v === "lit"]. *)
Definition is_str (v : JValue) (lit : string) : bool :=
  match v with
  | JStr s => String.eqb s lit
  | _ => false
  end.

(** [Array.isArray(v)]. *)
Definition Array_isArray (v : JValue) : bool :=
  match v with
  | JArr _ => true
  | _ => false
  end.

(** ** The tokens table *)

(** One row of [tokens (id INTEGER PRIMARY KEY, access_token TEXT,
    refresh_token TEXT, expires_at INTEGER)]; [None] is SQL NULL. *)
Record Row : Type := mkRow {
  id : Z;
  access_token : string;
  refresh_token : option string;
  expires_at : Z
}.

(** The argument object of [saveTokens]. *)
Record TokenArgs : Type := mkTokenArgs {
  arg_access_token : string;
  arg_refresh_token : option string;
  arg_expires_in : option Z
}.

(** What the storage engine does with the statements of one [saveTokens]
    call: both succeed, or one of them rejects. *)
Inductive DbFault : Type := NoFault | DeleteFails | InsertFails.

(** The rowid SQLite gives a row inserted without an id: one more than the
    largest in use, 1 in an empty table. *)
Definition next_rowid (t : list Row) : Z :=
  1 + fold_right Z.max 0 (map id t).

(** [refresh_token || null]. *)
Definition or_null (s : option string) : option string :=
  match s with
  | Some r => if truthy_str r then Some r else None
  | None => None
  end.

(** ** Upstream and downstream sockets *)

Inductive ReadyState : Type := CONNECTING | OPEN | CLOSING | CLOSED.

Definition is_open (r : option ReadyState) : bool :=
  match r with
  | Some OPEN => true
  | _ => false
  end.

(** What a handler does to the outside world, in the order it does it. *)
Inductive Action : Type :=
| Log (msg : string)
| LogErr (msg : string)
| DbDelete
| DbInsert (r : Row)
| TokenRequest (grant credential : string)
| OpenSocket (h : nat) (token : string)
| SocketSend (h : nat) (payload : JValue)
| SocketClose (h : nat)
| ClientSend (c : nat) (payload : JValue)
| ClientClose (c : nat)
| SetTimeout (t : nat) (ms : Z)
| ClearTimeout (t : nat)
| LtpRequest (c : nat) (symbol : JValue)
| HttpReply (status : Z) (body : string).

(** ** The state of the process *)

Record World : Type := mkWorld {
  (* the module-level variables of server.js *)
  upstoxAccessToken : string;
  upstoxRefreshToken : string;
  tokenExpiresAt : Z;
  upstoxWS : option nat;
  frontendClients : list nat;
  reconnectTimer : option nat;
  (* what they refer to *)
  db : list Row;                    (* the tokens table *)
  sockets : list ReadyState;        (* every upstream WebSocket made; handle = position *)
  channels : list ReadyState;       (* every frontend ws accepted; handle = position *)
  timeouts : list (nat * Z);        (* pending setTimeout handles with their delay *)
  timersCreated : nat;
  exchanges : list string;          (* token requests in flight: the refresh token posted *)
  ltpQueries : list (nat * JValue)  (* quote requests in flight: client and symbol *)
}.

Definition boot : World :=
  mkWorld "" "" 0 None [] None [] [] [] [] 0 [] [].

Definition set_credential (a r : string) (e : Z) (w : World) : World :=
  mkWorld a r e (upstoxWS w) (frontendClients w) (reconnectTimer w) (db w)
          (sockets w) (channels w) (timeouts w) (timersCreated w)
          (exchanges w) (ltpQueries w).

Definition set_upstoxWS (h : option nat) (w : World) : World :=
  mkWorld (upstoxAccessToken w) (upstoxRefreshToken w) (tokenExpiresAt w) h
          (frontendClients w) (reconnectTimer w) (db w) (sockets w)
          (channels w) (timeouts w) (timersCreated w) (exchanges w)
          (ltpQueries w).

Definition set_frontendClients (l : list nat) (w : World) : World :=
  mkWorld (upstoxAccessToken w) (upstoxRefreshToken w) (tokenExpiresAt w)
          (upstoxWS w) l (reconnectTimer w) (db w) (sockets w) (channels w)
          (timeouts w) (timersCreated w) (exchanges w) (ltpQueries w).

Definition set_reconnectTimer (t : option nat) (w : World) : World :=
  mkWorld (upstoxAccessToken w) (upstoxRefreshToken w) (tokenExpiresAt w)
          (upstoxWS w) (frontendClients w) t (db w) (sockets w) (channels w)
          (timeouts w) (timersCreated w) (exchanges w) (ltpQueries w).

Definition set_db (t : list Row) (w : World) : World :=
  mkWorld (upstoxAccessToken w) (upstoxRefreshToken w) (tokenExpiresAt w)
          (upstoxWS w) (frontendClients w) (reconnectTimer w) t (sockets w)
          (channels w) (timeouts w) (timersCreated w) (exchanges w)
          (ltpQueries w).

Definition set_sockets (l : list ReadyState) (w : World) : World :=
  mkWorld (upstoxAccessToken w) (upstoxRefreshToken w) (tokenExpiresAt w)
          (upstoxWS w) (frontendClients w) (reconnectTimer w) (db w) l
          (channels w) (timeouts w) (timersCreated w) (exchanges w)
          (ltpQueries w).

Definition set_channels (l : list ReadyState) (w : World) : World :=
  mkWorld (upstoxAccessToken w) (upstoxRefreshToken w) (tokenExpiresAt w)
          (upstoxWS w) (frontendClients w) (reconnectTimer w) (db w)
          (sockets w) l (timeouts w) (timersCreated w) (exchanges w)
          (ltpQueries w).

Definition set_timeouts (l : list (nat * Z)) (n : nat) (w : World) : World :=
  mkWorld (upstoxAccessToken w) (upstoxRefreshToken w) (tokenExpiresAt w)
          (upstoxWS w) (frontendClients w) (reconnectTimer w) (db w)
          (sockets w) (channels w) l n (exchanges w) (ltpQueries w).

Definition set_exchanges (l : list string) (w : World) : World :=
  mkWorld (upstoxAccessToken w) (upstoxRefreshToken w) (tokenExpiresAt w)
          (upstoxWS w) (frontendClients w) (reconnectTimer w) (db w)
          (sockets w) (channels w) (timeouts w) (timersCreated w) l
          (ltpQueries w).

Definition set_ltpQueries (l : list (nat * JValue)) (w : World) : World :=
  mkWorld (upstoxAccessToken w) (upstoxRefreshToken w) (tokenExpiresAt w)
          (upstoxWS w) (frontendClients w) (reconnectTimer w) (db w)
          (sockets w) (channels w) (timeouts w) (timersCreated w)
          (exchanges w) l.

(** ** Computations: state, exceptions and a trace *)

Inductive Completion (A : Type) : Type :=
| Normal (a : A)
| Thrown (e : string).
Arguments Normal {A} a.
Arguments Thrown {A} e.

Record Outcome (A : Type) : Type := mkOutcome {
  completion : Completion A;
  world : World;
  trace : list Action
}.
Arguments mkOutcome {A} _ _ _.
Arguments completion {A} _.
Arguments world {A} _.
Arguments trace {A} _.

Definition M (A : Type) : Type := World -> Outcome A.

Definition ret {A} (a : A) : M A := fun w => mkOutcome (Normal a) w [].

Definition throw {A} (e : string) : M A := fun w => mkOutcome (Thrown e) w [].

Definition bind {A B} (c : M A) (k : A -> M B) : M B :=
  fun w =>
    match c w with
    | mkOutcome (Normal a) w1 tr1 =>
        match k a w1 with
        | mkOutcome r w2 tr2 => mkOutcome r w2 (tr1 ++ tr2)
        end
    | mkOutcome (Thrown e) w1 tr1 => mkOutcome (Thrown e) w1 tr1
    end.

(** [try { body } catch (e) { handler }]: what the body did before it threw
    stays done. *)
Definition try_catch {A} (body : M A) (handler : string -> M A) : M A :=
  fun w =>
    match body w with
    | mkOutcome (Normal a) w1 tr1 => mkOutcome (Normal a) w1 tr1
    | mkOutcome (Thrown e) w1 tr1 =>
        match handler e w1 with
        | mkOutcome r w2 tr2 => mkOutcome r w2 (tr1 ++ tr2)
        end
    end.

Definition emit (a : Action) : M unit := fun w => mkOutcome (Normal tt) w [a].

Definition read {A} (f : World -> A) : M A := fun w => mkOutcome (Normal (f w)) w [].

Definition modify (f : World -> World) : M unit :=
  fun w => mkOutcome (Normal tt) (f w) [].

Declare Scope js_scope.
Delimit Scope js_scope with js.
Notation "'let!' x ':=' c 'in' k" := (bind c (fun x => k))
  (at level 10, x name, c at level 100, k at level 200) : js_scope.
Notation "c '>>' k" := (bind c (fun _ => k))
  (at level 90, right associativity) : js_scope.
Local Open Scope js_scope.

Definition log (msg : string) : M unit := emit (Log msg).
Definition logErr (msg : string) : M unit := emit (LogErr msg).

(** ** token_store.js *)

(** [saveTokens(db, {access_token, refresh_token, expires_in})]; [now] is
    [Math.floor(Date.now() / 1000)] as read on its first line. *)
Definition saveTokens (f : DbFault) (now : Z) (a : TokenArgs) : M unit :=
  let expires := now + or_num (arg_expires_in a) 3600 in
  match f with
  | DeleteFails => throw "DELETE FROM tokens failed"
  | _ =>
      emit DbDelete >>
      modify (set_db []) >>
      match f with
      | InsertFails => throw "INSERT INTO tokens failed"
      | _ =>
          let! t := read db in
          let r := mkRow (next_rowid t) (arg_access_token a)
                         (or_null (arg_refresh_token a)) expires in
          emit (DbInsert r) >>
          modify (set_db (t ++ [r]))
      end
  end.

(** [loadTokens(db)]: the first row, or null. *)
Definition loadTokens : M (option Row) :=
  let! t := read db in
  ret (head t).

(** ** server.js: the connection to the Upstox feed *)

(** [upstoxWS.readyState], when [upstoxWS] is not null. *)
Definition current_state (w : World) : option ReadyState :=
  match upstoxWS w with
  | Some h => sockets w !! h
  | None => None
  end.

(** [new WebSocket(url)], the url carrying the access token. *)
Definition new_WebSocket (token : string) : M nat :=
  let! l := read sockets in
  emit (OpenSocket (length l) token) >>
  modify (set_sockets (l ++ [CONNECTING])) >>
  ret (length l).

Definition setTimeout (ms : Z) : M nat :=
  let! n := read timersCreated in
  let! l := read timeouts in
  emit (SetTimeout n ms) >>
  modify (set_timeouts (l ++ [(n, ms)]) (S n)) >>
  ret n.

Definition clearTimeout (t : nat) : M unit :=
  let! n := read timersCreated in
  let! l := read timeouts in
  emit (ClearTimeout t) >>
  modify (set_timeouts (List.filter (fun p => negb (Nat.eqb (fst p) t)) l) n).

(** [ws.send(data)] of the ws package: throws while the socket is still
    connecting, otherwise hands the data to the socket. *)
Definition ws_send (h : nat) (payload : JValue) : M unit :=
  let! l := read sockets in
  match l !! h with
  | Some CONNECTING => throw "WebSocket is not open: readyState 0 (CONNECTING)"
  | _ => emit (SocketSend h payload)
  end.

(** [ws.close()] of ws 7.  A socket that is closing or closed is left as
    it is; an open one starts closing.  One that is still connecting aborts
    its handshake: it moves to CLOSING and [error] is emitted on it at once,
    before [close()] returns; [on_error] is the handler that then runs. *)
Definition ws_close (h : nat) (on_error : M unit) : M unit :=
  let! l := read sockets in
  emit (SocketClose h) >>
  match l !! h with
  | Some CONNECTING => modify (set_sockets (<[h := CLOSING]> l)) >> on_error
  | Some OPEN => modify (set_sockets (<[h := CLOSING]> l))
  | _ => ret tt
  end.

Definition connectUpstoxWS : M unit :=
  let! token := read upstoxAccessToken in
  if negb (truthy_str token) then
    log "No access token available yet - skipping Upstox WS connect"
  else
    let! st := read current_state in
    if is_open st then
      log "Upstox WS already connected"
    else
      log "Connecting to Upstox WS" >>
      let! t := read reconnectTimer in
      match t with
      | Some k => clearTimeout k >> modify (set_reconnectTimer None)
      | None => ret tt
      end >>
      let! h := new_WebSocket token in
      modify (set_upstoxWS (Some h)).

(** A frame as a handler sees it: its text, and what [JSON.parse] makes of
    the text ([None] when it throws). *)
Record Frame : Type := mkFrame {
  text : string;
  json : option JValue
}.

Fixpoint for_of {A} (l : list A) (body : A -> M unit) : M unit :=
  match l with
  | [] => ret tt
  | x :: r => body x >> for_of r body
  end.

Definition on_upstox_open : M unit :=
  log "Connected to Upstox live feed".

Definition upstox_payload (m : Frame) : JValue :=
  let parsed := match json m with
                | Some v => v
                | None => JStr (text m)
                end in
  JObj [("source", JStr "upstox"); ("data", parsed)].

Definition on_upstox_message (m : Frame) : M unit :=
  let payload := upstox_payload m in
  let! clients := read frontendClients in
  for_of clients (fun c =>
    let! ch := read channels in
    if is_open (ch !! c) then emit (ClientSend c payload) else ret tt).

Definition on_reconnect_timeout : M unit :=
  log "Reconnecting to Upstox WS..." >>
  connectUpstoxWS.

Definition on_upstox_close : M unit :=
  log "Upstox WS closed" >>
  let! t := setTimeout 5000 in
  modify (set_reconnectTimer (Some t)).

(** The [error] handler of an upstream socket.  Its [upstoxWS.close()] can
    emit [error] on the current socket before it returns, and the handler of
    that socket, which is this same code, then runs from inside the call;
    [nested] is the number of such runs that are followed.  A nested run
    finds the socket closing, so its own [close()] emits nothing and one
    level is all there is (see [on_upstox_error_depth]). *)
Fixpoint on_upstox_error_from (nested : nat) : M unit :=
  logErr "Upstox WS error" >>
  try_catch
    (let! cur := read upstoxWS in
     match cur with
     | Some h =>
         ws_close h match nested with
                    | S n => on_upstox_error_from n
                    | O => ret tt
                    end
     | None => throw "TypeError: upstoxWS is null"
     end)
    (fun _ => ret tt).

Definition on_upstox_error : M unit := on_upstox_error_from 1.

Definition array_length (v : JValue) : nat :=
  match v with
  | JArr l => length l
  | _ => 0%nat
  end.

Definition subscribe_command (symbols : JValue) : JValue :=
  JObj [("action", JStr "subscribe"); ("symbols", symbols)].

Definition forwardSubscriptionToUpstox (arg : JValue) : M bool :=
  let symbols := match arg with
                 | JUndefined => JArr []
                 | v => v
                 end in
  if negb (Array_isArray symbols) || Nat.eqb (array_length symbols) 0 then
    ret false
  else
    let! cur := read upstoxWS in
    let! st := read current_state in
    match cur with
    | Some h =>
        if is_open st then
          try_catch
            (ws_send h (subscribe_command symbols) >> ret true)
            (fun _ => logErr "Failed to forward subscription" >> ret false)
        else ret false
    | None => ret false
    end.

(** ** server.js: keeping the access token fresh *)

(** The body of a response of the token endpoint, [None] for a field that
    is not there. *)
Record TokenResponse : Type := mkTokenResponse {
  resp_access_token : option string;
  resp_refresh_token : option string;
  resp_expires_in : option Z
}.

(** How [await fetch(...)] followed by [await resp.json()] ends: the request
    fails, the body is not JSON, the body is a falsy value such as null, or
    the body is an object. *)
Inductive ExchangeOutcome : Type :=
| NetworkFailure
| BodyUnparsable
| BodyFalsy
| BodyData (d : TokenResponse).

Definition str_or_empty (s : option string) : string :=
  match s with
  | Some x => x
  | None => ""
  end.

(** [refreshAccessToken] up to its first [await]: the guard on the refresh
    token and the POST to the token endpoint.  Answers whether a request
    was sent. *)
Definition refreshAccessToken_request : M bool :=
  let! r := read upstoxRefreshToken in
  if negb (truthy_str r) then
    log "No refresh token available to refresh access token" >>
    ret false
  else
    emit (TokenRequest "refresh_token" r) >>
    let! l := read exchanges in
    modify (set_exchanges (l ++ [r])) >>
    ret true.

(** [refreshAccessToken] from the moment its request settles.  [t1] is the
    clock read when the expiry is computed, [t2] the one read by
    [saveTokens].  The function has no [return] with a value: it resolves to
    undefined. *)
Definition refreshAccessToken_resume
    (o : ExchangeOutcome) (t1 t2 : Z) (f : DbFault) : M JValue :=
  try_catch
    (match o with
     | NetworkFailure => throw "fetch failed"
     | BodyUnparsable => throw "invalid json response body"
     | BodyFalsy =>
         logErr "Refresh token response did not contain access_token"
     | BodyData d =>
         if truthy_str (str_or_empty (resp_access_token d)) then
           let! old := read upstoxRefreshToken in
           modify (set_credential
                     (str_or_empty (resp_access_token d))
                     (or_str (str_or_empty (resp_refresh_token d)) old)
                     (t1 + or_num (resp_expires_in d) 3600)) >>
           let! a := read upstoxAccessToken in
           let! r := read upstoxRefreshToken in
           saveTokens f t2 (mkTokenArgs a (Some r) (resp_expires_in d)) >>
           log "Refreshed Upstox access token and saved to DB" >>
           let! st := read current_state in
           if negb (is_open st) then connectUpstoxWS else ret tt
         else
           logErr "Refresh token response did not contain access_token"
     end)
    (fun e => logErr ("Error refreshing access token: " ++ e)) >>
  ret JUndefined.

(** The request of position [i] is no longer in flight. *)
Definition settle_exchange (i : nat) : M unit :=
  let! l := read exchanges in
  modify (set_exchanges (delete i l)).

(** One call of [refreshAccessToken] from start to end, the outcome of its
    request given. *)
Definition refreshAccessToken
    (o : ExchangeOutcome) (t1 t2 : Z) (f : DbFault) : M JValue :=
  let! n := read (fun w => length (exchanges w)) in
  let! sent := refreshAccessToken_request in
  if sent then
    settle_exchange n >>
    refreshAccessToken_resume o t1 t2 f
  else ret JUndefined.

(** The [setInterval] callback, [now] being the clock it reads. *)
Definition periodic_refresh_check (now : Z) : M unit :=
  let! e := read tokenExpiresAt in
  if negb (Z.eqb e 0) && Z.ltb (e - now) 120 then
    let! _ := refreshAccessToken_request in ret tt
  else ret tt.

(** [init] after [initDb]: load the saved tokens and either start a refresh
    or connect.  This is the body of its [try] when the store can be opened
    and read; its [catch] is [init_failed]. *)
Definition init (now : Z) : M unit :=
  let! saved := loadTokens in
  match saved with
  | Some row =>
      modify (set_credential (or_str (access_token row) "")
                             (or_str (str_or_empty (refresh_token row)) "")
                             (expires_at row)) >>
      log "Loaded tokens from DB" >>
      let! e := read tokenExpiresAt in
      if Z.ltb (e - now) 60 then
        let! _ := refreshAccessToken_request in ret tt
      else connectUpstoxWS
  | None => log "No saved tokens found. Perform OAuth to populate tokens."
  end.

(** [process.exit(code)]: the process ends there and nothing after it runs.
    It is carried as a completion that is not normal; the source calls it
    outside every [try], so nothing in the model catches it. *)
Definition process_exit (code : string) : M unit :=
  throw ("process.exit(" ++ code ++ ")").

(** The [catch] of [init]: [initDb] or [loadTokens] rejected. *)
Definition init_failed : M unit :=
  logErr "Init error" >>
  process_exit "1".

(** [GET /auth/callback], the outcome of its request to the token endpoint
    given. *)
Definition auth_callback
    (code : option string) (o : ExchangeOutcome) (t1 t2 : Z) (f : DbFault)
    : M unit :=
  try_catch
    (if negb (truthy_str (str_or_empty code)) then
       emit (HttpReply 400 "Missing code query param")
     else
       emit (TokenRequest "authorization_code" (str_or_empty code)) >>
       match o with
       | NetworkFailure => throw "fetch failed"
       | BodyUnparsable => throw "invalid json response body"
       | BodyFalsy =>
           logErr "Token exchange failed" >>
           emit (HttpReply 500 "Token exchange failed - check server logs")
       | BodyData d =>
           if negb (truthy_str (str_or_empty (resp_access_token d))) then
             logErr "Token exchange failed" >>
             emit (HttpReply 500 "Token exchange failed - check server logs")
           else
             modify (set_credential
                       (str_or_empty (resp_access_token d))
                       (or_str (str_or_empty (resp_refresh_token d)) "")
                       (t1 + or_num (resp_expires_in d) 3600)) >>
             let! a := read upstoxAccessToken in
             let! r := read upstoxRefreshToken in
             saveTokens f t2 (mkTokenArgs a (Some r) (resp_expires_in d)) >>
             log "Access token saved to DB via /auth/callback" >>
             connectUpstoxWS >>
             emit (HttpReply 200 "Access token saved. You can close this window.")
       end)
    (fun _ =>
       logErr "Auth callback error" >>
       emit (HttpReply 500 "Auth callback error - check server logs")).

(** ** server.js: the /live socket server *)

(** A property read [v.k], for the keys the handler reads (action, symbols,
    symbol), which no prototype defines: a TypeError on null, the field of
    an object, undefined on anything else. *)
Definition prop (v : JValue) (k : string) : M JValue :=
  match v with
  | JNull | JUndefined => throw "TypeError: cannot read properties of null"
  | JObj fields => ret (assoc k fields)
  | _ => ret JUndefined
  end.

Definition JSON_parse (m : Frame) : M JValue :=
  match json m with
  | Some v => ret v
  | None => throw "SyntaxError: unexpected token"
  end.

Definition ack_forwarded : JValue :=
  JObj [("ok", JBool true); ("info", JStr "Subscription forwarded to Upstox")].

Definition ack_not_connected : JValue :=
  JObj [("ok", JBool false); ("error", JStr "Upstox WS not connected yet")].

Definition reply_invalid : JValue :=
  JObj [("error", JStr "Invalid message format")].

Definition reply_echo (parsed : JValue) : JValue :=
  JObj [("echo", parsed)].

Definition reply_ltp (symbol j : JValue) : JValue :=
  JObj [("type", JStr "ltp_response"); ("symbol", symbol); ("data", j)].

Definition reply_ltp_failed : JValue :=
  JObj [("type", JStr "ltp_response"); ("error", JStr "failed")].

(** JavaScript strings are carried as their bytes in WTF-8, in which a
    surrogate that is not half of a pair is the byte ED followed by a byte
    from A0 to BF. *)
Fixpoint has_lone_surrogate (s : string) : bool :=
  match s with
  | String a rest =>
      match rest with
      | String b _ =>
          Nat.eqb (Ascii.nat_of_ascii a) 237 &&
          Nat.leb 160 (Ascii.nat_of_ascii b) || has_lone_surrogate rest
      | EmptyString => false
      end
  | EmptyString => false
  end.

(** [String(v)] throws a TypeError.  An object parsed from JSON with a field
    named toString has no callable toString (a parsed field never is) and
    the valueOf it inherits gives back the object; an array is joined, which
    converts its elements in turn. *)
Fixpoint String_throws (v : JValue) : bool :=
  match v with
  | JObj fields => existsb (fun p => String.eqb (fst p) "toString") fields
  | JArr items => existsb String_throws items
  | _ => false
  end.

(** [String(v)] holds a surrogate that is not half of a pair.  The strings
    of an array are joined with commas, which pairs nothing up. *)
Fixpoint String_malformed (v : JValue) : bool :=
  match v with
  | JStr s => has_lone_surrogate s
  | JArr items => existsb String_malformed items
  | _ => false
  end.

Definition encodeURIComponent_throws (v : JValue) : bool :=
  String_throws v || String_malformed v.

(** [encodeURIComponent(v)], for whether it throws; the encoded text itself
    is not carried. *)
Definition encodeURIComponent (v : JValue) : M unit :=
  if String_throws v then
    throw "TypeError: Cannot convert object to primitive value"
  else if String_malformed v then throw "URIError: URI malformed"
  else ret tt.

(** The [message] handler of the frontend socket [c].  Once [parsed.action]
    has been read without a TypeError, reading [parsed.symbols] and
    [parsed.symbol] cannot throw, so they are read ahead of the [&&] that
    guards them in the source.  A frontend socket is never in CONNECTING on
    the server side, the one state in which [ws.send] throws.  In the [ltp]
    branch the async function runs up to its first [await] inside the call:
    [encodeURIComponent(parsed.symbol)] is evaluated there, and when it
    throws, the [catch] of that function sends the failure reply at once
    and no request is made. *)
Definition on_frontend_message (c : nat) (m : Frame) : M unit :=
  try_catch
    (let! parsed := JSON_parse m in
     let! action := prop parsed "action" in
     let! symbols := prop parsed "symbols" in
     if is_str action "subscribe" && Array_isArray symbols then
       let! ok := forwardSubscriptionToUpstox symbols in
       if ok then emit (ClientSend c ack_forwarded)
       else emit (ClientSend c ack_not_connected)
     else
       let! symbol := prop parsed "symbol" in
       if is_str action "ltp" && truthy symbol then
         try_catch
           (encodeURIComponent symbol >>
            emit (LtpRequest c symbol) >>
            let! q := read ltpQueries in
            modify (set_ltpQueries (q ++ [(c, symbol)])))
           (fun _ => emit (ClientSend c reply_ltp_failed))
       else
         emit (ClientSend c (reply_echo parsed)))
    (fun _ =>
       logErr "Invalid message from frontend" >>
       emit (ClientSend c reply_invalid)).

(** The quote request started for an [ltp] message settles: with the JSON
    body [Some j], or by a failure of the request or of reading its body. *)
Definition on_ltp_settled (c : nat) (symbol : JValue) (o : option JValue)
    : M unit :=
  match o with
  | Some j => emit (ClientSend c (reply_ltp symbol j))
  | None => emit (ClientSend c reply_ltp_failed)
  end.

(** [wss.on("connection")]: the new socket joins the set. *)
Definition on_frontend_connection : M nat :=
  log "Frontend client connected" >>
  let! ch := read channels in
  modify (set_channels (ch ++ [OPEN])) >>
  let! l := read frontendClients in
  modify (set_frontendClients (l ++ [length ch])) >>
  ret (length ch).

Definition set_delete (c : nat) (l : list nat) : list nat :=
  List.filter (fun x => negb (Nat.eqb x c)) l.

Definition on_frontend_close (c : nat) : M unit :=
  log "Frontend client disconnected" >>
  let! l := read frontendClients in
  modify (set_frontendClients (set_delete c l)).

Definition on_frontend_error (c : nat) : M unit :=
  logErr "Frontend WS error" >>
  let! l := read frontendClients in
  modify (set_frontendClients (set_delete c l)) >>
  emit (ClientClose c) >>
  let! ch := read channels in
  match ch !! c with
  | Some CLOSED | None => ret tt
  | Some _ => modify (set_channels (<[c := CLOSING]> ch))
  end.

(** ** The event loop *)

(** What the runtime hands to the process, one event at a time: timers,
    settled requests, socket events.  An event that cannot happen in the
    current world (a second close of a closed socket, a timeout that was
    cleared) is dropped.  [StartupFailed] is a start at which the store
    cannot be opened or read.  An upstream socket that is closing still
    delivers the messages that reach it. *)
Inductive Event : Type :=
| Startup (now : Z)
| StartupFailed
| PeriodicCheck (now : Z)
| ExchangeSettled (i : nat) (o : ExchangeOutcome) (t1 t2 : Z) (f : DbFault)
| AuthCallback (code : option string) (o : ExchangeOutcome) (t1 t2 : Z)
               (f : DbFault)
| UpstoxOpen (h : nat)
| UpstoxMessage (h : nat) (m : Frame)
| UpstoxClose (h : nat)
| UpstoxError (h : nat)
| ReconnectTimeout (t : nat)
| FrontendConnect
| FrontendMessage (c : nat) (m : Frame)
| FrontendClose (c : nat)
| FrontendError (c : nat)
| LtpSettled (i : nat) (o : option JValue).

Definition pending (t : nat) (l : list (nat * Z)) : bool :=
  existsb (fun p => Nat.eqb (fst p) t) l.

Definition deliver (e : Event) : M unit :=
  match e with
  | Startup now => init now
  | StartupFailed => init_failed
  | PeriodicCheck now => periodic_refresh_check now
  | ExchangeSettled i o t1 t2 f =>
      let! l := read exchanges in
      match l !! i with
      | Some _ =>
          settle_exchange i >>
          let! _ := refreshAccessToken_resume o t1 t2 f in ret tt
      | None => ret tt
      end
  | AuthCallback code o t1 t2 f => auth_callback code o t1 t2 f
  | UpstoxOpen h =>
      let! l := read sockets in
      match l !! h with
      | Some CONNECTING =>
          modify (set_sockets (<[h := OPEN]> l)) >> on_upstox_open
      | _ => ret tt
      end
  | UpstoxMessage h m =>
      let! l := read sockets in
      match l !! h with
      | Some OPEN | Some CLOSING => on_upstox_message m
      | _ => ret tt
      end
  | UpstoxClose h =>
      let! l := read sockets in
      match l !! h with
      | Some CLOSED | None => ret tt
      | Some _ => modify (set_sockets (<[h := CLOSED]> l)) >> on_upstox_close
      end
  | UpstoxError h =>
      let! l := read sockets in
      match l !! h with
      | Some _ => on_upstox_error
      | None => ret tt
      end
  | ReconnectTimeout t =>
      let! l := read timeouts in
      let! n := read timersCreated in
      if pending t l then
        modify (set_timeouts
                  (List.filter (fun p => negb (Nat.eqb (fst p) t)) l) n) >>
        on_reconnect_timeout
      else ret tt
  | FrontendConnect => let! _ := on_frontend_connection in ret tt
  | FrontendMessage c m =>
      let! ch := read channels in
      match ch !! c with
      | Some OPEN => on_frontend_message c m
      | _ => ret tt
      end
  | FrontendClose c =>
      let! ch := read channels in
      match ch !! c with
      | Some CLOSED | None => ret tt
      | Some _ => modify (set_channels (<[c := CLOSED]> ch)) >> on_frontend_close c
      end
  | FrontendError c =>
      let! ch := read channels in
      match ch !! c with
      | Some _ => on_frontend_error c
      | None => ret tt
      end
  | LtpSettled i o =>
      let! q := read ltpQueries in
      match q !! i with
      | Some (c, symbol) =>
          modify (set_ltpQueries (delete i q)) >> on_ltp_settled c symbol o
      | None => ret tt
      end
  end.

Definition run (events : list Event) : M unit := for_of events deliver.

(** ** What the claims count *)

(** Upstream sockets that are connecting or open. *)
Definition live (l : list ReadyState) : nat :=
  length (List.filter (fun r => match r with
                                | CONNECTING | OPEN => true
                                | _ => false
                                end) l).

Definition is_socket_send (a : Action) : bool :=
  match a with
  | SocketSend _ _ => true
  | _ => false
  end.

Definition is_client_send_to (c : nat) (a : Action) : bool :=
  match a with
  | ClientSend c' _ => Nat.eqb c' c
  | _ => false
  end.

(** A send to a subscriber other than [c], or the closing of a channel. *)
Definition reaches_beyond (c : nat) (a : Action) : bool :=
  match a with
  | ClientSend c' _ => negb (Nat.eqb c' c)
  | ClientClose _ => true
  | _ => false
  end.

(** The payloads sent to subscriber [c], in order. *)
Fixpoint replies_to (c : nat) (tr : list Action) : list JValue :=
  match tr with
  | [] => []
  | ClientSend c' p :: rest =>
      if Nat.eqb c' c then p :: replies_to c rest else replies_to c rest
  | _ :: rest => replies_to c rest
  end.

Definition is_token_request (a : Action) : bool :=
  match a with
  | TokenRequest _ _ => true
  | _ => false
  end.

Definition count (p : Action -> bool) (l : list Action) : nat :=
  length (List.filter p l).

(** The in-memory credential. *)
Definition credential (w : World) : string * string * Z :=
  (upstoxAccessToken w, upstoxRefreshToken w, tokenExpiresAt w).

(** ** Scenarios and the properties checked on traces *)

(** A token endpoint reply that carries a full credential. *)
Definition token_reply : ExchangeOutcome :=
  BodyData (mkTokenResponse (Some "tok") (Some "ref") (Some 86400)).

(** The process at start, with one credential in the table. *)
Definition saved_world : World :=
  set_db [mkRow 1 "access" (Some "refresh") 1000] boot.

(** The same process with one refresh request already in flight. *)
Definition in_flight_world : World :=
  set_exchanges ["refresh"] (set_credential "access" "refresh" 1000 saved_world).

(** A feed socket that was open errors and is closing while a second
    OAuth callback opens another one; then both close. *)
Definition two_closes : list Event :=
  [AuthCallback (Some "code") token_reply 10 10 NoFault;
   UpstoxOpen 0;
   UpstoxError 0;
   AuthCallback (Some "code") token_reply 20 20 NoFault;
   UpstoxClose 0;
   UpstoxClose 1].

(** A refresh whose exchange succeeds and whose INSERT fails, while the
    feed socket has just closed; then the reconnect timer fires. *)
Definition unsaved_connect : list Event :=
  [AuthCallback (Some "code") token_reply 10 10 NoFault;
   PeriodicCheck 86400;
   UpstoxClose 0;
   ExchangeSettled 0
     (BodyData (mkTokenResponse (Some "tok2") (Some "ref2") (Some 86400)))
     86401 86401 InsertFails;
   ReconnectTimeout 0].

(** One frontend client connected, no feed. *)
Definition one_client : World :=
  world (run [FrontendConnect] boot).

(** The feed open and one frontend client connected. *)
Definition relay_ready : World :=
  world (run [AuthCallback (Some "code") token_reply 10 10 NoFault;
              UpstoxOpen 0; FrontendConnect] boot).

Definition at_most_one_exchange (w : World) : Prop :=
  (length (exchanges w) <= 1)%nat.

Definition at_most_one_reconnect_pending (w : World) : Prop :=
  (length (timeouts w) <= 1)%nat.

(** Scans a trace: every socket opened so far was opened with an access
    token that an earlier INSERT of the same trace wrote. *)
Fixpoint connects_follow_save (saved : list string) (tr : list Action) : bool :=
  match tr with
  | [] => true
  | DbInsert r :: rest => connects_follow_save (access_token r :: saved) rest
  | OpenSocket _ tok :: rest =>
      existsb (String.eqb tok) saved && connects_follow_save saved rest
  | _ :: rest => connects_follow_save saved rest
  end.

(** Whatever precedes the opening of a socket in the trace contains the
    INSERT of a row with the access token the socket is opened with. *)
Definition saved_before_connect (tr : list Action) : Prop :=
  forall pre h tok post,
    tr = pre ++ OpenSocket h tok :: post ->
    exists r, In (DbInsert r) pre /\ access_token r = tok.

(** The exchange did not produce an access token. *)
Definition exchange_failed (o : ExchangeOutcome) : bool :=
  match o with
  | BodyData d => negb (truthy_str (str_or_empty (resp_access_token d)))
  | _ => true
  end.

(** The spec's [RefreshError{cause}] as the result of a call: a rejection, or
    an object with a cause. *)
Definition is_RefreshError (c : Completion JValue) : Prop :=
  match c with
  | Thrown _ => True
  | Normal (JObj fields) => assoc "cause" fields <> JUndefined
  | Normal _ => False
  end.

(** The frame of [{action: "subscribe", symbols: <symbols>}]. *)
Definition subscribe_message (txt : string) (symbols : JValue) : Frame :=
  mkFrame txt (Some (JObj [("action", JStr "subscribe"); ("symbols", symbols)])).

(** The members of [frontendClients] whose socket is open. *)
Definition open_clients (w : World) : list nat :=
  List.filter (fun c => is_open (channels w !! c)) (frontendClients w).

(** The wrapper as the spec words it, tagged [source: "upstream"]; compared
    below with [upstox_payload], the one the handler builds. *)
Definition spec_payload (m : Frame) : JValue :=
  JObj [("source", JStr "upstream");
        ("data", match json m with
                 | Some v => v
                 | None => JStr (text m)
                 end)].

(** A property read that cannot throw, as the statements below use it:
    the field of an object, undefined on anything else. *)
Definition field (v : JValue) (k : string) : JValue :=
  match v with
  | JObj fields => assoc k fields
  | _ => JUndefined
  end.

(** The reply to a quote query whose request has settled. *)
Definition ltp_reply (symbol : JValue) (o : option JValue) : JValue :=
  match o with
  | Some j => reply_ltp symbol j
  | None => reply_ltp_failed
  end.

Definition is_startup_failed (e : Event) : bool :=
  match e with
  | StartupFailed => true
  | _ => false
  end.

(** ** Proof automation *)

Ltac js_unfold :=
  unfold refreshAccessToken, refreshAccessToken_request, refreshAccessToken_resume,
    auth_callback, settle_exchange, saveTokens, connectUpstoxWS, new_WebSocket,
    clearTimeout, setTimeout, on_frontend_message, forwardSubscriptionToUpstox,
    ws_send, prop, JSON_parse, encodeURIComponent, try_catch, bind, read,
    modify, emit, ret, throw, log, logErr.

Ltac js_known :=
  repeat match goal with
         | H : ?x = _ |- context [?x] => rewrite H
         end.

Ltac js_step :=
  match goal with
  | |- context [match ?x with _ => _ end] => is_var x; destruct x
  | |- context [truthy_str ?s] => destruct (truthy_str s) eqn:?
  | |- context [?l !! ?i] => destruct (l !! i) eqn:?
  | |- context [Z.eqb ?x ?y] => destruct (Z.eqb x y) eqn:?
  | |- context [Z.ltb ?x ?y] => destruct (Z.ltb x y) eqn:?
  end.

Ltac js_simpl :=
  cbn; unfold current_state; cbn; rewrite ?String.eqb_refl; js_known; cbn.

Ltac js_cases := repeat (js_simpl; js_step); js_simpl.

(** ** What the further properties check on traces *)

(** A socket is only ever opened with a non-empty access token. *)
Definition opens_with_token (a : Action) : bool :=
  match a with
  | OpenSocket _ tok => truthy_str tok
  | _ => true
  end.

Definition is_open_socket (a : Action) : bool :=
  match a with
  | OpenSocket _ _ => true
  | _ => false
  end.

Definition is_set_timeout (a : Action) : bool :=
  match a with
  | SetTimeout _ _ => true
  | _ => false
  end.

(** ** Proof automation for whole handlers *)

Ltac js_unfold_all :=
  unfold deliver, run, init, loadTokens, periodic_refresh_check,
    on_upstox_open, on_upstox_close, on_upstox_error, on_upstox_error_from,
    ws_close, init_failed, process_exit,
    on_reconnect_timeout, on_frontend_connection, on_frontend_close,
    on_frontend_error, on_ltp_settled;
  js_unfold.

Ltac js_step_value :=
  match goal with
  | |- context [match ?x with _ => _ end] => is_var x; destruct x
  | |- context [truthy_str ?s] => destruct (truthy_str s) eqn:?
  | |- context [is_str ?v ?s] => destruct (is_str v s) eqn:?
  | |- context [Array_isArray ?v] => destruct (Array_isArray v) eqn:?
  | |- context [array_length ?v] => destruct (array_length v) eqn:?
  | |- context [truthy ?v] => destruct (truthy v) eqn:?
  | |- context [String_throws ?v] => destruct (String_throws v) eqn:?
  | |- context [String_malformed ?v] => destruct (String_malformed v) eqn:?
  | |- context [pending ?t ?l] => destruct (pending t l) eqn:?
  | |- context [existsb ?f ?l] => destruct (existsb f l) eqn:?
  | |- context [?l !! ?i] => destruct (l !! i) eqn:?
  | |- context [Z.eqb ?x ?y] => destruct (Z.eqb x y) eqn:?
  | |- context [Z.ltb ?x ?y] => destruct (Z.ltb x y) eqn:?
  | |- context [head ?l] => is_var l; destruct l
  | |- context [json ?m] => is_var m; destruct m as [? [?|]]
  | |- context [match assoc ?k ?f with _ => _ end] =>
      destruct (assoc k f) eqn:?
  end.

Ltac js_cases_all := repeat (js_simpl; js_step_value); js_simpl.

(** ** The simulated-candle server (src/unnamed/part_000) *)

Module Sim.

(** A one-minute candle.  Every price of this server has gone through
    [toFixed(2)]; prices are carried in hundredths, on which [Math.max],
    [Math.min] and the comparisons agree with those of the numbers. *)
Record Candle : Type := mkCandle {
  time : Z;
  open : Z;
  high : Z;
  low : Z;
  close : Z
}.

(** The objects handed to [JSON.stringify]. *)
Inductive Message : Type :=
| History (candles : list Candle)
| Tick (at_time price : Z)
| NewCandle (candle : Candle)
| UpdateCandle (candle : Candle).

(** [history], [lastPrice] and the sockets of [wss.clients], a handle being
    a position. *)
Record State : Type := mkState {
  history : list Candle;
  lastPrice : Z;
  clients : list ReadyState
}.

Definition open_handles (l : list ReadyState) : list nat :=
  List.filter (fun i => is_open (l !! i)) (seq 0 (length l)).

(** [broadcastJSON(obj)]: one send to every client whose socket is open. *)
Definition broadcastJSON (obj : Message) (s : State) : list (nat * Message) :=
  map (fun i => (i, obj)) (open_handles (clients s)).

(** [wss.on('connection')]: the new client is sent the whole history. *)
Definition on_connection (s : State) : State * list (nat * Message) :=
  (mkState (history s) (lastPrice s) (clients s ++ [OPEN]),
   [(length (clients s), History (history s))]).

(** The body of the tick loop.  [now] is [Math.floor(Date.now() / 1000)];
    [price] is what the random-walk expression gives [lastPrice]. *)
Definition tick (now price : Z) (s : State) : State * list (nat * Message) :=
  let out := broadcastJSON (Tick now price) s in
  let minute := now / 60 * 60 in
  let fresh :=
    let newCandle := mkCandle minute price price price price in
    let pushed := history s ++ [newCandle] in
    let kept := if Nat.ltb 2000 (length pushed) then tl pushed else pushed in
    (mkState kept price (clients s),
     out ++ broadcastJSON (NewCandle newCandle) s) in
  match last (history s) with
  | Some lastCandle =>
      if negb (Z.eqb (time lastCandle) minute) then fresh
      else
        let updated := mkCandle (time lastCandle) (open lastCandle)
                                (Z.max (high lastCandle) price)
                                (Z.min (low lastCandle) price)
                                price in
        (mkState (removelast (history s) ++ [updated]) price (clients s),
         out ++ broadcastJSON (UpdateCandle updated) s)
  | None => fresh
  end.

(** What the loop and the socket server are handed, one event at a time. *)
Inductive Event : Type :=
| Connection
| Ticked (now price : Z).

Definition step (e : Event) (s : State) : State * list (nat * Message) :=
  match e with
  | Connection => on_connection s
  | Ticked now price => tick now price s
  end.

Fixpoint run (events : list Event) (s : State) : State * list (nat * Message) :=
  match events with
  | [] => (s, [])
  | e :: rest =>
      let (s1, out1) := step e s in
      let (s2, out2) := run rest s1 in
      (s2, out1 ++ out2)
  end.

(** Low is at most open and close, which are at most high. *)
Definition well_formed (c : Candle) : Prop :=
  low c <= open c <= high c /\ low c <= close c <= high c.

End Sim.
(** ** Helper lemmas *)

Lemma delete_last {A} (l : list A) (x : A) : delete (length l) (l ++ [x]) = l.
Proof.
  induction l as [|y l IH]; simpl; [reflexivity | now rewrite IH].
Qed.

Lemma or_str_empty (s : string) : or_str s "" = s.
Proof.
  unfold or_str, truthy_str. destruct (String.eqb_spec s ""); simpl; congruence.
Qed.

Lemma pending_cleared (t : nat) (l : list (nat * Z)) :
  pending t (List.filter (fun p => negb (Nat.eqb (fst p) t)) l) = false.
Proof.
  unfold pending. induction l as [|[k ms] l IH]; simpl; [reflexivity|].
  destruct (Nat.eqb k t) eqn:E; simpl; [exact IH | now rewrite E].
Qed.

(** ** The token store *)

(** C10.  [saveTokens] deletes every row and then inserts one, so whatever
    the table held before, after the call it holds exactly the credential
    just saved: the access token, the refresh token or NULL when it is
    absent or empty, and the expiry [now + expires_in], with 3600 when
    [expires_in] is absent; [loadTokens] right after returns that row. *)
Theorem saveTokens_then_loadTokens (now : Z) (a : TokenArgs) (w : World) :
  let r := mkRow 1 (arg_access_token a) (or_null (arg_refresh_token a))
                 (now + or_num (arg_expires_in a) 3600) in
  let o := saveTokens NoFault now a w in
  completion o = Normal tt /\
  trace o = [DbDelete; DbInsert r] /\
  db (world o) = [r] /\
  completion (loadTokens (world o)) = Normal (Some r) /\
  or_null None = None /\
  or_num None 3600 = 3600.
Proof.
  cbv zeta. repeat split; reflexivity.
Qed.

Example saveTokens_replaces_rows :
  db (world (saveTokens NoFault 1000 (mkTokenArgs "new" None None)
               (set_db [mkRow 7 "old" (Some "r") 5; mkRow 9 "older" None 3] boot))) =
  [mkRow 1 "new" None 4600].
Proof. reflexivity. Qed.

(** ** Refresh triggers *)

(** C1, as stated, fails: after a startup that connects, two periodic checks
    in a row, the first request not yet settled, leave two token requests in
    flight. *)
Lemma two_exchanges_in_flight :
  ~ at_most_one_exchange
      (world (run [Startup 0; PeriodicCheck 900; PeriodicCheck 945] saved_world)).
Proof.
  unfold at_most_one_exchange. vm_compute. lia.
Qed.

(** C1, amended.  A refresh trigger whose condition holds (the periodic
    check with a non-zero expiry less than 120 s ahead, the startup check
    with the loaded expiry less than 60 s ahead) adds one token request to
    those in flight whenever a refresh token is held, whatever is already in
    flight; it adds none only when no refresh token is held. *)
Theorem refresh_triggers_start_exchanges (w : World) (now : Z) :
  (tokenExpiresAt w <> 0 -> tokenExpiresAt w - now < 120 ->
   exchanges (world (deliver (PeriodicCheck now) w)) =
   exchanges w ++
     (if truthy_str (upstoxRefreshToken w) then [upstoxRefreshToken w] else []))
  /\
  (forall row rest, db w = row :: rest -> expires_at row - now < 60 ->
   exchanges (world (deliver (Startup now) w)) =
   exchanges w ++
     (if truthy_str (str_or_empty (refresh_token row))
      then [str_or_empty (refresh_token row)] else [])).
Proof.
  split.
  - intros Hz Hlt. destruct w as [a r e ws fc rt d so ch ti n ex lq].
    cbn in Hz, Hlt.
    unfold deliver, periodic_refresh_check. js_unfold. cbn.
    destruct (Z.eqb_spec e 0) as [->|_]; [contradiction|].
    destruct (Z.ltb_spec (e - now) 120) as [_|Hge]; [|lia]. cbn.
    destruct (truthy_str r); cbn; [reflexivity | now rewrite app_nil_r].
  - intros row rest Hdb Hlt. destruct w as [a r e ws fc rt d so ch ti n ex lq].
    cbn in Hdb. subst d.
    unfold deliver, init, loadTokens. js_unfold. cbn.
    destruct (Z.ltb_spec (expires_at row - now) 60) as [_|Hge]; [|lia]. cbn.
    rewrite !or_str_empty.
    destruct (truthy_str (str_or_empty (refresh_token row))) eqn:E; cbn;
      [reflexivity | now rewrite app_nil_r].
Qed.

Lemma refresh_triggers_start_exchanges_witness :
  exchanges (world (deliver (PeriodicCheck 945) in_flight_world)) =
    ["refresh"; "refresh"] /\
  exchanges (world (deliver (Startup 990) saved_world)) = ["refresh"].
Proof.
  split.
  - refine (proj1 (refresh_triggers_start_exchanges in_flight_world 945) _ _);
      simpl; lia.
  - refine (proj2 (refresh_triggers_start_exchanges saved_world 990)
                  (mkRow 1 "access" (Some "refresh") 1000) [] _ _);
      [reflexivity | simpl; lia].
Defined.

(** ** connectUpstoxWS *)

Lemma connectUpstoxWS_open_noop (w : World) :
  truthy_str (upstoxAccessToken w) = true ->
  is_open (current_state w) = true ->
  world (connectUpstoxWS w) = w /\
  trace (connectUpstoxWS w) = [Log "Upstox WS already connected"].
Proof.
  intros Ht Ho. js_unfold. cbn.
  rewrite Ht. cbn. rewrite Ho. cbn. split; reflexivity.
Qed.

Lemma connectUpstoxWS_not_open (w : World) :
  truthy_str (upstoxAccessToken w) = true ->
  is_open (current_state w) = false ->
  sockets (world (connectUpstoxWS w)) = sockets w ++ [CONNECTING] /\
  upstoxWS (world (connectUpstoxWS w)) = Some (length (sockets w)) /\
  reconnectTimer (world (connectUpstoxWS w)) = None /\
  timeouts (world (connectUpstoxWS w)) =
    match reconnectTimer w with
    | Some t => List.filter (fun p => negb (Nat.eqb (fst p) t)) (timeouts w)
    | None => timeouts w
    end /\
  trace (connectUpstoxWS w) =
    Log "Connecting to Upstox WS" ::
    match reconnectTimer w with
    | Some t => [ClearTimeout t]
    | None => []
    end ++ [OpenSocket (length (sockets w)) (upstoxAccessToken w)].
Proof.
  intros Ht Ho. destruct w as [a r e ws fc rt d so ch ti n ex lq].
  js_unfold. cbn in *.
  rewrite Ht. cbn. rewrite Ho. cbn.
  destruct rt; cbn; repeat split; reflexivity.
Qed.

(** C2, on the input where the code departs from it.  With an access token
    and no socket yet, a first [connectUpstoxWS] leaves a socket that is
    connecting; a second call right after is not a no-op: it opens a second
    socket, and two sockets are connecting at once. *)
Theorem connectUpstoxWS_twice_two_sockets :
  let w := set_credential "token" "" 0 boot in
  let once := connectUpstoxWS w in
  let twice := connectUpstoxWS (world once) in
  current_state (world once) = Some CONNECTING /\
  sockets (world twice) = [CONNECTING; CONNECTING] /\
  live (sockets (world twice)) = 2%nat /\
  trace twice = [Log "Connecting to Upstox WS"; OpenSocket 1 "token"].
Proof.
  cbv zeta. repeat split; reflexivity.
Qed.

(** ** The reconnect timer *)

(** C3, as stated, fails: when a second socket closes before the timer set
    by the first close has fired, two reconnect timers are pending. *)
Lemma second_close_second_timer :
  ~ at_most_one_reconnect_pending (world (run two_closes boot)).
Proof.
  unfold at_most_one_reconnect_pending. vm_compute. lia.
Qed.

(** C3, amended.  The close of an upstream socket schedules exactly one
    reconnect, 5000 ms later, and records it in [reconnectTimer]; the handler
    clears nothing.  The recorded timer is cleared by [connectUpstoxWS] when
    it goes on to open a socket. *)
Theorem close_schedules_one_reconnect (w : World) (h : nat) (s : ReadyState) :
  sockets w !! h = Some s ->
  s <> CLOSED ->
  let o := deliver (UpstoxClose h) w in
  timeouts (world o) = timeouts w ++ [(timersCreated w, 5000)] /\
  reconnectTimer (world o) = Some (timersCreated w) /\
  trace o = [Log "Upstox WS closed"; SetTimeout (timersCreated w) 5000] /\
  forall w' t,
    truthy_str (upstoxAccessToken w') = true ->
    is_open (current_state w') = false ->
    reconnectTimer w' = Some t ->
    In (ClearTimeout t) (trace (connectUpstoxWS w')) /\
    pending t (timeouts (world (connectUpstoxWS w'))) = false /\
    reconnectTimer (world (connectUpstoxWS w')) = None.
Proof.
  intros Hs Hc o.
  assert (Ho : o = (modify (set_sockets (<[h := CLOSED]> (sockets w))) >>
                    on_upstox_close) w).
  { subst o. unfold deliver, bind at 1, read. cbn. rewrite Hs.
    destruct s; try reflexivity. contradiction. }
  rewrite Ho. clear o Ho.
  destruct w as [a r e ws fc rt d so ch ti n ex lq].
  repeat split; try reflexivity.
  - destruct (connectUpstoxWS_not_open w' H H0) as (_ & _ & _ & _ & Htr).
    rewrite Htr, H1. cbn. auto.
  - destruct (connectUpstoxWS_not_open w' H H0) as (_ & _ & _ & Hti & _).
    rewrite Hti, H1. apply pending_cleared.
  - destruct (connectUpstoxWS_not_open w' H H0) as (_ & _ & Hrt & _).
    exact Hrt.
Qed.

Lemma close_schedules_one_reconnect_witness :
  let w := world (run [AuthCallback (Some "code") token_reply 10 10 NoFault;
                       UpstoxOpen 0] boot) in
  timeouts (world (deliver (UpstoxClose 0) w)) = [(0%nat, 5000)] /\
  reconnectTimer (world (deliver (UpstoxClose 0) w)) = Some 0%nat /\
  reconnectTimer
    (world (connectUpstoxWS (world (deliver (UpstoxClose 0) w)))) = None.
Proof.
  cbv zeta.
  pose proof (close_schedules_one_reconnect
                (world (run [AuthCallback (Some "code") token_reply 10 10 NoFault;
                             UpstoxOpen 0] boot))
                0 OPEN eq_refl ltac:(discriminate)) as (H1 & H2 & _ & H4).
  split; [exact H1 | split; [exact H2 |]].
  refine (proj2 (proj2 (H4 _ 0%nat _ _ _))); reflexivity.
Defined.

(** ** Saving before connecting *)

Lemma connects_follow_save_sound (tr : list Action) :
  forall saved,
    connects_follow_save saved tr = true ->
    forall pre h tok post,
      tr = pre ++ OpenSocket h tok :: post ->
      In tok saved \/ exists r, In (DbInsert r) pre /\ access_token r = tok.
Proof.
  induction tr as [|a tr IH]; intros saved Hc pre h tok post Heq.
  - destruct pre; discriminate.
  - destruct pre as [|b pre]; simpl in Heq; injection Heq as -> ->.
    + simpl in Hc. apply andb_true_iff in Hc as [Hc _].
      apply existsb_exists in Hc as (x & Hin & Hx).
      apply String.eqb_eq in Hx. subst x. now left.
    + assert (Hstep : forall saved',
                 connects_follow_save saved' (pre ++ OpenSocket h tok :: post) = true ->
                 In tok saved' \/
                 exists r, In (DbInsert r) pre /\ access_token r = tok)
        by (intros saved' H'; eapply IH; eauto).
      destruct b; simpl in Hc;
        try (destruct (Hstep saved Hc) as [Hin | (r0 & Hin & Hr)];
             [now left | right; exists r0; split; [now right | exact Hr]]).
      * destruct (Hstep _ Hc) as [[Heq | Hin] | (r0 & Hin & Hr)].
        -- right. exists r. split; [now left | exact Heq].
        -- now left.
        -- right. exists r0. split; [now right | exact Hr].
      * apply andb_true_iff in Hc as [_ Hc].
        destruct (Hstep saved Hc) as [Hin | (r0 & Hin & Hr)];
          [now left | right; exists r0; split; [now right | exact Hr]].
Qed.

Lemma connects_follow_save_spec (tr : list Action) :
  connects_follow_save [] tr = true -> saved_before_connect tr.
Proof.
  intros Hc pre h tok post Heq.
  destruct (connects_follow_save_sound tr [] Hc pre h tok post Heq) as [[] | H].
  exact H.
Qed.

(** C4, as stated, fails: the in-memory credential is replaced before it
    is saved, so a connect made from elsewhere can use a token that is not
    in the table.  Here the INSERT of the refresh fails and the reconnect
    timer then dials with the new token, which no INSERT ever wrote. *)
Lemma connect_with_unsaved_token :
  ~ saved_before_connect (trace (run unsaved_connect boot)).
Proof.
  assert (E : trace (run unsaved_connect boot) =
              [TokenRequest "authorization_code" "code"; DbDelete;
               DbInsert (mkRow 1 "tok" (Some "ref") 86410);
               Log "Access token saved to DB via /auth/callback";
               Log "Connecting to Upstox WS"; OpenSocket 0 "tok";
               HttpReply 200 "Access token saved. You can close this window.";
               TokenRequest "refresh_token" "ref";
               Log "Upstox WS closed"; SetTimeout 0 5000; DbDelete;
               LogErr "Error refreshing access token: INSERT INTO tokens failed";
               Log "Reconnecting to Upstox WS..."; Log "Connecting to Upstox WS";
               ClearTimeout 0] ++ OpenSocket 1 "tok2" :: [])
    by (vm_compute; reflexivity).
  intros H.
  destruct (H _ 1%nat "tok2" [] E) as (r & Hin & Hr).
  cbn [In] in Hin.
  repeat (destruct Hin as [Hin|Hin];
          [try discriminate Hin; injection Hin as <-; discriminate Hr|]).
  contradiction.
Qed.

(** C4, amended.  In one run of [refreshAccessToken] and in one run of the
    [/auth/callback] handler, whatever the token endpoint answers and whether
    or not the table can be written, every socket the run itself opens is
    opened after the run has inserted a row with the access token the socket
    is opened with: the path saves first and connects second, and a save
    that fails leaves no connect of that path behind it. *)
Theorem credential_saved_before_connect
    (w : World) (o : ExchangeOutcome) (t1 t2 : Z) (f : DbFault)
    (code : option string) :
  saved_before_connect (trace (refreshAccessToken o t1 t2 f w)) /\
  saved_before_connect (trace (auth_callback code o t1 t2 f w)).
Proof.
  split; apply connects_follow_save_spec;
    destruct w as [a r e ws fc rt d so ch ti n ex lq]; js_unfold.
  - js_cases; try reflexivity.
  - js_cases; try reflexivity.
Qed.

Example refresh_saves_then_connects :
  trace (refreshAccessToken token_reply 50 50 NoFault
           (set_credential "old" "r" 100 boot)) =
  [TokenRequest "refresh_token" "r"; DbDelete;
   DbInsert (mkRow 1 "tok" (Some "ref") 86450);
   Log "Refreshed Upstox access token and saved to DB";
   Log "Connecting to Upstox WS"; OpenSocket 0 "tok"].
Proof. reflexivity. Qed.

Example callback_saves_then_connects :
  trace (auth_callback (Some "code") token_reply 50 50 NoFault boot) =
  [TokenRequest "authorization_code" "code"; DbDelete;
   DbInsert (mkRow 1 "tok" (Some "ref") 86450);
   Log "Access token saved to DB via /auth/callback";
   Log "Connecting to Upstox WS"; OpenSocket 0 "tok";
   HttpReply 200 "Access token saved. You can close this window."].
Proof. reflexivity. Qed.

Example refresh_save_fails_no_connect :
  trace (refreshAccessToken token_reply 50 50 InsertFails
           (set_credential "old" "r" 100 boot)) =
  [TokenRequest "refresh_token" "r"; DbDelete;
   LogErr "Error refreshing access token: INSERT INTO tokens failed"].
Proof. reflexivity. Qed.

(** ** A refresh that fails *)

(** C5, as stated, fails: a refresh whose request fails resolves to
    undefined; it neither rejects nor returns an error with a cause. *)
Lemma failed_refresh_resolves_undefined :
  ~ is_RefreshError
      (completion (refreshAccessToken NetworkFailure 0 0 NoFault
                     (set_credential "a" "r" 100 boot))).
Proof. cbn. intros []. Qed.

(** C5, amended.  A refresh whose exchange fails (the request fails, the
    body is not JSON, or the body carries no access token) leaves the
    in-memory credential and the table as they were, as it does the rest of
    the state; it sends at most one request, logs the failure and resolves
    to undefined. *)
Theorem failed_exchange_keeps_credential
    (w : World) (o : ExchangeOutcome) (t1 t2 : Z) (f : DbFault) :
  exchange_failed o = true ->
  let r := refreshAccessToken o t1 t2 f w in
  credential (world r) = credential w /\
  db (world r) = db w /\
  world r = w /\
  completion r = Normal JUndefined /\
  (count is_token_request (trace r) <= 1)%nat /\
  if truthy_str (upstoxRefreshToken w)
  then exists msg,
         trace r = [TokenRequest "refresh_token" (upstoxRefreshToken w);
                    LogErr msg]
  else trace r = [Log "No refresh token available to refresh access token"].
Proof.
  intros Hf r0.
  assert (Hw : world r0 = w /\ completion r0 = Normal JUndefined /\
               if truthy_str (upstoxRefreshToken w)
               then exists msg,
                   trace r0 = [TokenRequest "refresh_token" (upstoxRefreshToken w);
                               LogErr msg]
               else trace r0 =
                    [Log "No refresh token available to refresh access token"]).
  { subst r0. destruct w as [a r e ws fc rt d so ch ti n ex lq].
    js_unfold. cbn.
    destruct (truthy_str r) eqn:Hr; cbn; [|repeat split; reflexivity].
    rewrite delete_last.
    destruct o as [ | | | d0]; cbn in Hf |- *;
      try (repeat split; try reflexivity; eexists; reflexivity).
    apply negb_true_iff in Hf. rewrite Hf. cbn.
    repeat split; try reflexivity; eexists; reflexivity. }
  destruct Hw as (Hw & Hc & Ht).
  repeat split; try assumption; try (rewrite Hw; reflexivity).
  destruct (truthy_str (upstoxRefreshToken w)).
  - destruct Ht as (msg & ->). cbn. lia.
  - rewrite Ht. cbn. lia.
Qed.

Lemma failed_exchange_keeps_credential_witness :
  let w := set_db [mkRow 1 "a" (Some "r") 100] (set_credential "a" "r" 100 boot) in
  let r := refreshAccessToken BodyFalsy 90 90 NoFault w in
  credential (world r) = ("a", "r", 100) /\
  db (world r) = [mkRow 1 "a" (Some "r") 100] /\
  completion r = Normal JUndefined.
Proof.
  cbv zeta.
  pose proof (failed_exchange_keeps_credential
                (set_db [mkRow 1 "a" (Some "r") 100]
                        (set_credential "a" "r" 100 boot))
                BodyFalsy 90 90 NoFault eq_refl) as (H1 & H2 & _ & H4 & _).
  split; [exact H1 | split; [exact H2 | exact H4]].
Defined.

(** ** Subscriptions from the frontend *)

(** C6.  A message [{action: "subscribe", symbols: ["X"]}] from subscriber
    [c]: when the feed socket is open, exactly one subscribe command goes
    upstream and exactly one success acknowledgement goes to [c]; when it is
    not (no socket, or a socket in any other state), nothing goes upstream
    and exactly one failure acknowledgement goes to [c].  Either way the
    state is left as it was: nothing is queued. *)
Theorem subscribe_round_trip (w : World) (c : nat) (txt X : string) :
  let o := on_frontend_message c (subscribe_message txt (JArr [JStr X])) w in
  completion o = Normal tt /\
  world o = w /\
  match upstoxWS w with
  | Some h =>
      if is_open (sockets w !! h)
      then trace o = [SocketSend h (subscribe_command (JArr [JStr X]));
                      ClientSend c ack_forwarded] /\
           count is_socket_send (trace o) = 1%nat /\
           count (is_client_send_to c) (trace o) = 1%nat
      else trace o = [ClientSend c ack_not_connected] /\
           count is_socket_send (trace o) = 0%nat /\
           count (is_client_send_to c) (trace o) = 1%nat
  | None => trace o = [ClientSend c ack_not_connected] /\
            count is_socket_send (trace o) = 0%nat /\
            count (is_client_send_to c) (trace o) = 1%nat
  end.
Proof.
  destruct w as [a r e ws fc rt d so ch ti n ex lq].
  unfold subscribe_message. js_unfold. cbn.
  destruct ws as [h|]; cbn.
  - unfold current_state. cbn.
    destruct (so !! h) as [[]|] eqn:Hs; cbn; rewrite ?Hs; cbn;
      rewrite ?Nat.eqb_refl; repeat split; reflexivity.
  - rewrite ?Nat.eqb_refl. repeat split; reflexivity.
Qed.

(** C9, as stated, fails: with the feed open, a subscribe message whose
    symbols field is a string is not answered with the failure
    acknowledgement. *)
Lemma non_array_symbols_echoed :
  is_open (current_state relay_ready) = true /\
  replies_to 0 (trace (on_frontend_message 0
                         (subscribe_message "" (JStr "X")) relay_ready)) <>
  [ack_not_connected].
Proof. split; [reflexivity | cbn; discriminate]. Qed.

(** C9, amended.  Whatever the state of the feed: a subscribe message with
    an empty symbols array is answered with the failure acknowledgement
    "Upstox WS not connected yet" and nothing goes upstream; one whose
    symbols field is not an array is echoed back and nothing goes upstream;
    and [forwardSubscriptionToUpstox] returns false, doing nothing, on the
    empty array and on every non-array argument. *)
Theorem empty_or_non_array_symbols
    (w : World) (c : nat) (txt : string) (v : JValue) :
  Array_isArray v = false ->
  let empty := on_frontend_message c (subscribe_message txt (JArr [])) w in
  let other := on_frontend_message c (subscribe_message txt v) w in
  trace empty = [ClientSend c ack_not_connected] /\
  world empty = w /\
  trace other =
    [ClientSend c (reply_echo (JObj [("action", JStr "subscribe");
                                     ("symbols", v)]))] /\
  world other = w /\
  forwardSubscriptionToUpstox (JArr []) w = mkOutcome (Normal false) w [] /\
  forwardSubscriptionToUpstox v w = mkOutcome (Normal false) w [].
Proof.
  intros Hv. destruct w as [a r e ws fc rt d so ch ti n ex lq].
  unfold subscribe_message. cbv zeta.
  repeat split; try reflexivity;
    destruct v; try discriminate Hv; reflexivity.
Qed.

Lemma empty_or_non_array_symbols_witness :
  trace (on_frontend_message 0 (subscribe_message "" (JArr [])) relay_ready) =
    [ClientSend 0 ack_not_connected] /\
  trace (on_frontend_message 0 (subscribe_message "" (JStr "X")) relay_ready) =
    [ClientSend 0 (reply_echo (JObj [("action", JStr "subscribe");
                                     ("symbols", JStr "X")]))].
Proof.
  pose proof (empty_or_non_array_symbols relay_ready 0 "" (JStr "X") eq_refl)
    as (H1 & _ & H3 & _).
  split; [exact H1 | exact H3].
Defined.

(** ** Relaying the feed *)

(** C7, as stated, fails: the relayed wrapper is not the one tagged
    [source: "upstream"]. *)
Lemma relay_is_tagged_upstox :
  trace (on_upstox_message (mkFrame "hello" None) one_client) <>
  map (fun c => ClientSend c (spec_payload (mkFrame "hello" None)))
      (open_clients one_client).
Proof. cbn. discriminate. Qed.

Lemma relay_loop (payload : JValue) (l : list nat) (w : World) :
  for_of l (fun c =>
    let! ch := read channels in
    if is_open (ch !! c) then emit (ClientSend c payload) else ret tt) w =
  mkOutcome (Normal tt) w
    (map (fun c => ClientSend c payload)
         (List.filter (fun c => is_open (channels w !! c)) l)).
Proof.
  induction l as [|c l IH]; [reflexivity|].
  cbn [for_of]. unfold bind at 1. unfold bind at 1. unfold read at 1.
  destruct (is_open (channels w !! c)) eqn:Ho; cbn [List.filter]; rewrite Ho;
    cbn; rewrite IH; reflexivity.
Qed.

(** C7, amended.  Every message of the feed is sent once to every member of
    [frontendClients] whose socket is open, in the order of the set, wrapped
    as [{source: "upstox", data: <parsed>}] when it parses as JSON and as
    [{source: "upstox", data: <raw string>}] when it does not; the handler
    ends normally, logs nothing and changes nothing. *)
Theorem upstox_message_relayed (w : World) (m : Frame) :
  let o := on_upstox_message m w in
  trace o = map (fun c => ClientSend c (upstox_payload m)) (open_clients w) /\
  completion o = Normal tt /\
  world o = w /\
  upstox_payload m =
    JObj [("source", JStr "upstox");
          ("data", match json m with
                   | Some v => v
                   | None => JStr (text m)
                   end)].
Proof.
  assert (H : on_upstox_message m w =
              mkOutcome (Normal tt) w
                (map (fun c => ClientSend c (upstox_payload m)) (open_clients w))).
  { unfold on_upstox_message. unfold bind at 1, read at 1.
    rewrite relay_loop. reflexivity. }
  cbv zeta. rewrite H. repeat split; reflexivity.
Qed.

(** ** One reply per frontend message *)

(** C8.  Whatever a subscriber [c] sends, the handler ends normally, sends
    nothing to any other subscriber, closes no channel and leaves the set of
    subscribers as it was; and [c] gets exactly one reply, which is: the
    error reply for input that does not parse as a message; for a subscribe
    command with an array of symbols, the success acknowledgement when the
    array is not empty and the feed is open and the failure acknowledgement
    otherwise; for an [ltp] query with a truthy symbol, the failure reply at
    once when the symbol cannot be encoded, and otherwise the single reply
    sent when the quote request settles, whichever way it settles; for
    anything else, the echo of what was sent. *)
Theorem every_message_one_reply (w : World) (c : nat) (m : Frame) :
  let o := on_frontend_message c m w in
  completion o = Normal tt /\
  existsb (reaches_beyond c) (trace o) = false /\
  frontendClients (world o) = frontendClients w /\
  channels (world o) = channels w /\
  match json m with
  | None | Some JNull | Some JUndefined =>
      replies_to c (trace o) = [reply_invalid] /\
      ltpQueries (world o) = ltpQueries w
  | Some parsed =>
      let action := field parsed "action" in
      let symbols := field parsed "symbols" in
      let symbol := field parsed "symbol" in
      if is_str action "subscribe" && Array_isArray symbols then
        replies_to c (trace o) =
          [if negb (Nat.eqb (array_length symbols) 0) &&
              is_open (current_state w)
           then ack_forwarded else ack_not_connected] /\
        ltpQueries (world o) = ltpQueries w
      else if is_str action "ltp" && truthy symbol then
        if encodeURIComponent_throws symbol then
          replies_to c (trace o) = [reply_ltp_failed] /\
          ltpQueries (world o) = ltpQueries w
        else
          replies_to c (trace o) = [] /\
          ltpQueries (world o) = ltpQueries w ++ [(c, symbol)] /\
          forall res w',
            replies_to c (trace (on_ltp_settled c symbol res w')) =
            [ltp_reply symbol res]
      else
        replies_to c (trace o) = [reply_echo parsed] /\
        ltpQueries (world o) = ltpQueries w
  end.
Proof.
  destruct w as [a r e ws fc rt d so ch ti n ex lq].
  destruct m as [txt [v|]]; cbv zeta.
  2: { js_unfold. cbn. rewrite Nat.eqb_refl. repeat split; reflexivity. }
  destruct v as [ | | b | k | s | items | fields ]; js_unfold; cbn;
    rewrite ?Nat.eqb_refl; cbn; try (repeat split; reflexivity).
  unfold encodeURIComponent_throws.
  destruct (is_str (assoc "action" fields) "subscribe") eqn:Ha; cbn.
  - destruct (assoc "symbols" fields) as [ | | b | k | s | items | fs ] eqn:Hs;
      cbn; rewrite ?Ha; cbn.
    6: { destruct items as [|x items]; cbn.
         - rewrite ?Nat.eqb_refl; cbn. repeat split; reflexivity.
         - unfold current_state. cbn.
           destruct ws as [h|]; cbn.
           + destruct (so !! h) as [[]|] eqn:Hso; cbn; rewrite ?Hso; cbn;
               rewrite ?Nat.eqb_refl; cbn; repeat split; reflexivity.
           + rewrite ?Nat.eqb_refl; cbn. repeat split; reflexivity. }
    all: destruct (is_str (assoc "action" fields) "ltp") eqn:Hl; cbn;
      [ destruct (truthy (assoc "symbol" fields)) eqn:Hy; cbn;
        [ destruct (String_throws (assoc "symbol" fields)) eqn:Ht; cbn;
          [ | destruct (String_malformed (assoc "symbol" fields)) eqn:Hm; cbn ]
        | ]
      | ];
      rewrite ?Nat.eqb_refl; cbn; repeat split; try reflexivity;
      intros [j|] w'; cbn; rewrite Nat.eqb_refl; reflexivity.
  - destruct (is_str (assoc "action" fields) "ltp") eqn:Hl; cbn;
      [ destruct (truthy (assoc "symbol" fields)) eqn:Hy; cbn;
        [ destruct (String_throws (assoc "symbol" fields)) eqn:Ht; cbn;
          [ | destruct (String_malformed (assoc "symbol" fields)) eqn:Hm; cbn ]
        | ]
      | ];
      rewrite ?Nat.eqb_refl; cbn; repeat split; try reflexivity;
      intros [j|] w'; cbn; rewrite Nat.eqb_refl; reflexivity.
Qed.

(** ** Every handler, every event *)

Lemma on_upstox_message_outcome (m : Frame) (w : World) :
  on_upstox_message m w =
  mkOutcome (Normal tt) w
    (map (fun c => ClientSend c (upstox_payload m)) (open_clients w)).
Proof.
  unfold on_upstox_message. unfold bind at 1, read at 1.
  rewrite relay_loop. reflexivity.
Qed.

Lemma deliver_upstox_message (h : nat) (m : Frame) (w : World) :
  deliver (UpstoxMessage h m) w =
  match sockets w !! h with
  | Some OPEN | Some CLOSING =>
      mkOutcome (Normal tt) w
        (map (fun c => ClientSend c (upstox_payload m)) (open_clients w))
  | _ => mkOutcome (Normal tt) w []
  end.
Proof.
  unfold deliver. unfold bind at 1, read at 1. cbv beta iota.
  destruct (sockets w !! h) as [[]|]; try reflexivity;
    rewrite on_upstox_message_outcome; reflexivity.
Qed.

(** The nested run of the error handler does not depend on how many further
    nested runs would be followed: there are none. *)
Lemma on_upstox_error_depth (n : nat) (w : World) :
  on_upstox_error_from (S n) w = on_upstox_error w.
Proof.
  destruct w as [a r e ws fc rt d so ch ti k ex lq].
  unfold on_upstox_error. destruct n as [|n]; [reflexivity|].
  cbn [on_upstox_error_from]. unfold ws_close. js_unfold. cbn.
  destruct ws as [h|]; cbn; [|reflexivity].
  destruct (so !! h) as [[]|] eqn:Hs; cbn; try reflexivity.
  assert (Hlt : (h < length so)%nat) by (eapply lookup_lt_Some; eauto).
  rewrite !list_lookup_insert_eq by exact Hlt. reflexivity.
Qed.

(** What one delivered event does, whatever the event and the state: the
    handler ends normally, unless it is the failed start, which ends the
    process; and every socket it opens is opened with a non-empty access
    token. *)
Lemma deliver_step (e : Event) (w : World) :
  completion (deliver e w) =
    (if is_startup_failed e then Thrown "process.exit(1)" else Normal tt) /\
  forallb opens_with_token (trace (deliver e w)) = true.
Proof.
  destruct e.
  7: { rewrite deliver_upstox_message.
       destruct (sockets w !! h) as [[]|]; cbn; repeat split; auto;
         induction (open_clients w); cbn; auto. }
  all: destruct w as [a r e0 ws fc rt d so ch ti n ex lq].
  all: js_unfold_all; js_cases_all; repeat split; cbn; auto.
Qed.

Lemma run_cons (e : Event) (events : list Event) (w : World) :
  is_startup_failed e = false ->
  world (run (e :: events) w) = world (run events (world (deliver e w))) /\
  completion (run (e :: events) w) =
    completion (run events (world (deliver e w))) /\
  trace (run (e :: events) w) =
    trace (deliver e w) ++ trace (run events (world (deliver e w))).
Proof.
  intros He.
  change (run (e :: events) w) with (bind (deliver e) (fun _ => run events) w).
  unfold bind.
  pose proof (deliver_step e w) as (Hn & _). rewrite He in Hn.
  destruct (deliver e w) as [c w1 tr1]. cbn in Hn. subst c. cbn.
  destruct (run events w1); repeat split; reflexivity.
Qed.

Lemma run_failed_start (events : list Event) (w : World) :
  run (StartupFailed :: events) w =
  mkOutcome (Thrown "process.exit(1)") w [LogErr "Init error"].
Proof. reflexivity. Qed.

(** X1.  No handler lets an exception escape.  Whatever events arrive, in
    whatever order and state, the run ends normally, with one exception:
    a start at which the token store cannot be opened or read logs the
    error and ends the process with exit code 1, and nothing after it
    runs. *)
Theorem run_ends_normally_or_exits (events : list Event) (w : World) :
  completion (run events w) =
  if existsb is_startup_failed events
  then Thrown "process.exit(1)" else Normal tt.
Proof.
  revert w. induction events as [|e events IH]; intros w; [reflexivity|].
  cbn [existsb]. destruct (is_startup_failed e) eqn:He.
  - destruct e; try discriminate He. rewrite run_failed_start. reflexivity.
  - destruct (run_cons e events w He) as (_ & Hc & _). rewrite Hc. apply IH.
Qed.

(** X2.  The feed is never dialled without a token: in any run of events,
    from any state, every socket opened is opened with a non-empty access
    token. *)
Theorem sockets_open_with_token (events : list Event) (w : World) :
  forallb opens_with_token (trace (run events w)) = true.
Proof.
  revert w. induction events as [|e events IH]; intros w; [reflexivity|].
  destruct (is_startup_failed e) eqn:He.
  - destruct e; try discriminate He. rewrite run_failed_start. reflexivity.
  - destruct (run_cons e events w He) as (_ & _ & Ht). rewrite Ht.
    rewrite forallb_app, IH, andb_true_r. apply deliver_step.
Qed.

(** ** connectUpstoxWS, case by case *)

(** X3.  [connectUpstoxWS] opens one socket exactly when an access token is
    held and the current socket is not open, and none otherwise; in no case
    does it throw, change the state of a socket that exists, or touch the
    credential, the table, the subscribers or the requests in flight. *)
Theorem connectUpstoxWS_effect (w : World) :
  let o := connectUpstoxWS w in
  let go := truthy_str (upstoxAccessToken w) &&
            negb (is_open (current_state w)) in
  completion o = Normal tt /\
  sockets (world o) = sockets w ++ (if go then [CONNECTING] else []) /\
  upstoxWS (world o) = (if go then Some (length (sockets w)) else upstoxWS w) /\
  List.filter is_open_socket (trace o) =
    (if go then [OpenSocket (length (sockets w)) (upstoxAccessToken w)]
     else []) /\
  credential (world o) = credential w /\
  db (world o) = db w /\
  frontendClients (world o) = frontendClients w /\
  channels (world o) = channels w /\
  exchanges (world o) = exchanges w.
Proof.
  destruct w as [a r e ws fc rt d so ch ti n ex lq]. cbv zeta.
  js_unfold. cbn.
  destruct (truthy_str a) eqn:Ha; cbn; rewrite ?Ha; cbn.
  - unfold current_state. cbn.
    destruct (is_open match ws with Some h => so !! h | None => None end)
      eqn:Ho; cbn.
    + rewrite app_nil_r. repeat split; reflexivity.
    + destruct rt; cbn; repeat split; reflexivity.
  - rewrite app_nil_r. repeat split; reflexivity.
Qed.

(** ** saveTokens when a statement fails *)

(** X4.  [saveTokens] is not atomic.  When the DELETE fails, the call
    rejects and the table is as it was.  When the DELETE succeeds and the
    INSERT fails, the call rejects and the table is left empty, whatever it
    held: [loadTokens] then finds no credential. *)
Theorem saveTokens_failures (now : Z) (a : TokenArgs) (w : World) :
  let del := saveTokens DeleteFails now a w in
  let ins := saveTokens InsertFails now a w in
  completion del = Thrown "DELETE FROM tokens failed" /\
  world del = w /\
  trace del = [] /\
  completion ins = Thrown "INSERT INTO tokens failed" /\
  db (world ins) = [] /\
  trace ins = [DbDelete] /\
  completion (loadTokens (world ins)) = Normal None.
Proof.
  destruct w as [a0 r e ws fc rt d so ch ti n ex lq].
  cbv zeta. repeat split; reflexivity.
Qed.

(** ** The OAuth callback *)

(** X5.  Without a [code] (absent or empty) the callback answers 400 and
    does nothing else: no request to the token endpoint, no change of
    state. *)
Theorem auth_callback_missing_code
    (w : World) (code : option string) (o : ExchangeOutcome) (t1 t2 : Z)
    (f : DbFault) :
  truthy_str (str_or_empty code) = false ->
  auth_callback code o t1 t2 f w =
  mkOutcome (Normal tt) w [HttpReply 400 "Missing code query param"].
Proof.
  intros Hc. js_unfold. rewrite Hc. reflexivity.
Qed.

Lemma auth_callback_missing_code_witness :
  auth_callback None token_reply 0 0 NoFault saved_world =
  mkOutcome (Normal tt) saved_world [HttpReply 400 "Missing code query param"].
Proof.
  apply (auth_callback_missing_code saved_world None token_reply 0 0 NoFault).
  reflexivity.
Defined.

(** X6.  A callback whose exchange fails (the request fails, the body is
    not JSON, or the body carries no access token) answers 500 after one
    request and one error log; the state, credential and table included, is
    left as it was and no socket is opened. *)
Theorem auth_callback_failed_exchange
    (w : World) (code : string) (o : ExchangeOutcome) (t1 t2 : Z)
    (f : DbFault) :
  truthy_str code = true ->
  exchange_failed o = true ->
  let r := auth_callback (Some code) o t1 t2 f w in
  completion r = Normal tt /\
  world r = w /\
  exists msg body,
    trace r = [TokenRequest "authorization_code" code; LogErr msg;
               HttpReply 500 body].
Proof.
  intros Hc Hf. destruct w as [a r e ws fc rt d so ch ti n ex lq].
  cbv zeta. js_unfold. cbn. rewrite Hc. cbn.
  destruct o as [ | | | d0]; cbn in Hf |- *;
    try (repeat split; try reflexivity; do 2 eexists; reflexivity).
  rewrite Hf. cbn. repeat split; try reflexivity; do 2 eexists; reflexivity.
Qed.

Lemma auth_callback_failed_exchange_witness :
  world (auth_callback (Some "code") NetworkFailure 0 0 NoFault saved_world) =
  saved_world.
Proof.
  exact (proj1 (proj2 (auth_callback_failed_exchange
                         saved_world "code" NetworkFailure 0 0 NoFault
                         eq_refl eq_refl))).
Defined.

(** X7.  A callback whose exchange succeeds and whose save succeeds
    replaces the credential wholesale: the access token of the response, its
    refresh token or the empty string when it has none (the one held before
    is not kept), and the expiry [t1 + expires_in] with 3600 for a missing
    or zero [expires_in]; the table holds exactly that credential, and the
    answer is 200. *)
Theorem auth_callback_replaces_credential
    (w : World) (code : string) (d : TokenResponse) (t1 t2 : Z) :
  truthy_str code = true ->
  truthy_str (str_or_empty (resp_access_token d)) = true ->
  let r := auth_callback (Some code) (BodyData d) t1 t2 NoFault w in
  completion r = Normal tt /\
  credential (world r) =
    (str_or_empty (resp_access_token d),
     str_or_empty (resp_refresh_token d),
     t1 + or_num (resp_expires_in d) 3600) /\
  db (world r) =
    [mkRow 1 (str_or_empty (resp_access_token d))
           (or_null (Some (str_or_empty (resp_refresh_token d))))
           (t2 + or_num (resp_expires_in d) 3600)] /\
  last (trace r) =
    Some (HttpReply 200 "Access token saved. You can close this window.").
Proof.
  intros Hc Ha. destruct w as [a r e ws fc rt d0 so ch ti n ex lq].
  cbv zeta. js_unfold. cbn. rewrite Hc. cbn. rewrite Ha. cbn.
  rewrite !or_str_empty, ?Ha. cbn. unfold current_state. cbn.
  destruct (is_open match ws with Some h => so !! h | None => None end); cbn.
  - repeat split; reflexivity.
  - destruct rt; cbn; repeat split; reflexivity.
Qed.

Lemma auth_callback_replaces_credential_witness :
  credential (world (auth_callback (Some "code")
                       (BodyData (mkTokenResponse (Some "tok") None None))
                       100 100 NoFault
                       (set_credential "old" "oldrefresh" 50 boot))) =
  ("tok", "", 3700).
Proof.
  exact (proj1 (proj2 (auth_callback_replaces_credential
                         (set_credential "old" "oldrefresh" 50 boot) "code"
                         (mkTokenResponse (Some "tok") None None) 100 100
                         eq_refl eq_refl))).
Defined.

(** ** A refresh that succeeds *)

(** X8.  A refresh whose exchange and save succeed replaces the
    credential: the access token of the response, its refresh token or, when
    it has none, the one held before (so a refresh never leaves the process
    without a refresh token), and the expiry [t1 + expires_in] with 3600 by
    default; the table holds exactly that credential, and the request is no
    longer in flight. *)
Theorem refresh_replaces_credential
    (w : World) (d : TokenResponse) (t1 t2 : Z) :
  truthy_str (upstoxRefreshToken w) = true ->
  truthy_str (str_or_empty (resp_access_token d)) = true ->
  let r := refreshAccessToken (BodyData d) t1 t2 NoFault w in
  let kept := or_str (str_or_empty (resp_refresh_token d))
                     (upstoxRefreshToken w) in
  completion r = Normal JUndefined /\
  credential (world r) =
    (str_or_empty (resp_access_token d), kept,
     t1 + or_num (resp_expires_in d) 3600) /\
  truthy_str kept = true /\
  db (world r) =
    [mkRow 1 (str_or_empty (resp_access_token d)) (Some kept)
           (t2 + or_num (resp_expires_in d) 3600)] /\
  exchanges (world r) = exchanges w.
Proof.
  intros Hr Ha. destruct w as [a r e ws fc rt d0 so ch ti n ex lq].
  cbn in Hr. cbv zeta.
  assert (Hk : truthy_str (or_str (str_or_empty (resp_refresh_token d)) r) = true).
  { unfold or_str. destruct (truthy_str (str_or_empty (resp_refresh_token d))) eqn:E;
      [exact E | exact Hr]. }
  js_unfold. cbn. rewrite Hr. cbn. rewrite delete_last, Ha. cbn.
  js_cases; repeat split; try reflexivity; exact Hk.
Qed.

Lemma refresh_replaces_credential_witness :
  credential (world (refreshAccessToken
                       (BodyData (mkTokenResponse (Some "tok") None (Some 0)))
                       100 100 NoFault
                       (set_credential "old" "oldrefresh" 50 boot))) =
  ("tok", "oldrefresh", 3700).
Proof.
  exact (proj1 (proj2 (refresh_replaces_credential
                         (set_credential "old" "oldrefresh" 50 boot)
                         (mkTokenResponse (Some "tok") None (Some 0)) 100 100
                         eq_refl eq_refl))).
Defined.

(** X9.  A refresh that succeeds while the feed socket is open does not
    reconnect: no socket is opened or closed, and the socket opened with the
    old access token stays the current one. *)
Theorem refresh_while_open_keeps_socket
    (w : World) (d : TokenResponse) (t1 t2 : Z) (f : DbFault) :
  is_open (current_state w) = true ->
  let r := refreshAccessToken (BodyData d) t1 t2 f w in
  sockets (world r) = sockets w /\
  upstoxWS (world r) = upstoxWS w /\
  List.filter is_open_socket (trace r) = [] /\
  reconnectTimer (world r) = reconnectTimer w /\
  timeouts (world r) = timeouts w.
Proof.
  intros Ho. destruct w as [a r e ws fc rt d0 so ch ti n ex lq].
  unfold current_state in Ho. cbn in Ho. cbv zeta.
  js_unfold. cbn.
  destruct (truthy_str r) eqn:Hr; cbn; [|repeat split; reflexivity].
  rewrite delete_last.
  destruct (truthy_str (str_or_empty (resp_access_token d))) eqn:Ha; cbn;
    [|repeat split; reflexivity].
  destruct f; cbn; try (repeat split; reflexivity).
  unfold current_state. cbn. rewrite Ho. cbn. repeat split; reflexivity.
Qed.

Lemma refresh_while_open_keeps_socket_witness :
  sockets (world (refreshAccessToken token_reply 100 100 NoFault
                    (set_credential "tok" "r" 50 relay_ready))) =
  sockets relay_ready.
Proof.
  exact (proj1 (refresh_while_open_keeps_socket
                  (set_credential "tok" "r" 50 relay_ready)
                  (mkTokenResponse (Some "tok") (Some "ref") (Some 86400))
                  100 100 NoFault eq_refl)).
Defined.

(** X10.  When the exchange succeeds but the save fails, the in-memory
    credential has already been replaced: memory holds the new access token
    while the table holds the old rows (DELETE failed) or nothing (INSERT
    failed); no socket is opened and the call still resolves to
    undefined. *)
Theorem refresh_save_failure_memory_ahead
    (w : World) (d : TokenResponse) (t1 t2 : Z) (f : DbFault) :
  truthy_str (upstoxRefreshToken w) = true ->
  truthy_str (str_or_empty (resp_access_token d)) = true ->
  f <> NoFault ->
  let r := refreshAccessToken (BodyData d) t1 t2 f w in
  completion r = Normal JUndefined /\
  upstoxAccessToken (world r) = str_or_empty (resp_access_token d) /\
  tokenExpiresAt (world r) = t1 + or_num (resp_expires_in d) 3600 /\
  db (world r) = (match f with DeleteFails => db w | _ => [] end) /\
  sockets (world r) = sockets w /\
  List.filter is_open_socket (trace r) = [].
Proof.
  intros Hr Ha Hf. destruct w as [a r e ws fc rt d0 so ch ti n ex lq].
  cbn in Hr. cbv zeta. js_unfold. cbn. rewrite Hr. cbn.
  rewrite delete_last, Ha. cbn.
  destruct f; [contradiction | |]; cbn; repeat split; reflexivity.
Qed.

Lemma refresh_save_failure_memory_ahead_witness :
  let r := refreshAccessToken token_reply 100 100 InsertFails
             (set_credential "access" "refresh" 1000 saved_world) in
  upstoxAccessToken (world r) = "tok" /\ db (world r) = [].
Proof.
  cbv zeta.
  pose proof (refresh_save_failure_memory_ahead
                (set_credential "access" "refresh" 1000 saved_world)
                (mkTokenResponse (Some "tok") (Some "ref") (Some 86400))
                100 100 InsertFails eq_refl eq_refl ltac:(discriminate))
    as (_ & H2 & _ & H4 & _).
  split; [exact H2 | exact H4].
Defined.

(** ** Startup *)

(** X11.  With no saved row, startup does nothing but log: no credential,
    no request, no socket. *)
Theorem init_without_saved_tokens (w : World) (now : Z) :
  db w = [] ->
  init now w =
  mkOutcome (Normal tt) w
    [Log "No saved tokens found. Perform OAuth to populate tokens."].
Proof.
  intros Hd. destruct w as [a r e ws fc rt d so ch ti n ex lq].
  cbn in Hd. subst d. reflexivity.
Qed.

Lemma init_without_saved_tokens_witness :
  init 0 boot =
  mkOutcome (Normal tt) boot
    [Log "No saved tokens found. Perform OAuth to populate tokens."].
Proof. apply (init_without_saved_tokens boot 0). reflexivity. Defined.

(** X12.  Startup with a saved credential that expires in less than 60 s
    loads it into memory and does not connect: no socket is opened, even
    though an access token is held; the only thing it may do is send the
    refresh request. *)
Theorem init_near_expiry_does_not_connect
    (w : World) (now : Z) (row : Row) (rest : list Row) :
  db w = row :: rest ->
  expires_at row - now < 60 ->
  let o := init now w in
  credential (world o) =
    (access_token row, str_or_empty (refresh_token row), expires_at row) /\
  sockets (world o) = sockets w /\
  upstoxWS (world o) = upstoxWS w /\
  List.filter is_open_socket (trace o) = [].
Proof.
  intros Hd Hlt. destruct w as [a r e ws fc rt d so ch ti n ex lq].
  cbn in Hd. subst d. cbv zeta.
  unfold init, loadTokens. js_unfold. cbn.
  destruct (Z.ltb_spec (expires_at row - now) 60) as [_|Hge]; [|lia]. cbn.
  rewrite !or_str_empty.
  destruct (truthy_str (str_or_empty (refresh_token row))) eqn:E; cbn;
    rewrite ?or_str_empty, ?E; cbn; rewrite ?or_str_empty;
    repeat split; reflexivity.
Qed.

Lemma init_near_expiry_does_not_connect_witness :
  sockets (world (init 970 saved_world)) = [] /\
  List.filter is_open_socket (trace (init 970 saved_world)) = [].
Proof.
  pose proof (init_near_expiry_does_not_connect saved_world 970
                (mkRow 1 "access" (Some "refresh") 1000) [] eq_refl
                ltac:(simpl; lia)) as (_ & H2 & _ & H4).
  split; [exact H2 | exact H4].
Defined.

(** X13.  Startup with a saved credential good for 60 s or more, in a
    process that has no socket yet, loads it and opens one socket with the
    saved access token; it sends no request to the token endpoint. *)
Theorem init_fresh_token_connects
    (w : World) (now : Z) (row : Row) (rest : list Row) :
  db w = row :: rest ->
  60 <= expires_at row - now ->
  truthy_str (access_token row) = true ->
  upstoxWS w = None ->
  let o := init now w in
  credential (world o) =
    (access_token row, str_or_empty (refresh_token row), expires_at row) /\
  sockets (world o) = sockets w ++ [CONNECTING] /\
  List.filter is_open_socket (trace o) =
    [OpenSocket (length (sockets w)) (access_token row)] /\
  List.filter is_token_request (trace o) = [] /\
  exchanges (world o) = exchanges w.
Proof.
  intros Hd Hge Ha Hws. destruct w as [a r e ws fc rt d so ch ti n ex lq].
  cbn in Hd, Hws. subst d ws. cbv zeta.
  unfold init, loadTokens. js_unfold. cbn.
  destruct (Z.ltb_spec (expires_at row - now) 60) as [Hlt|_]; [lia|]. cbn.
  rewrite !or_str_empty, Ha. cbn.
  destruct rt; cbn; rewrite ?or_str_empty; repeat split; reflexivity.
Qed.

Lemma init_fresh_token_connects_witness :
  sockets (world (init 0 saved_world)) = [CONNECTING] /\
  List.filter is_open_socket (trace (init 0 saved_world)) =
    [OpenSocket 0 "access"].
Proof.
  pose proof (init_fresh_token_connects saved_world 0
                (mkRow 1 "access" (Some "refresh") 1000) [] eq_refl
                ltac:(simpl; lia) eq_refl eq_refl) as (_ & H2 & H3 & _).
  split; [exact H2 | exact H3].
Defined.

(** ** The periodic check *)

(** X14.  The periodic check does nothing at all while no expiry is known
    ([tokenExpiresAt] is 0) or while the token is good for 120 s or more. *)
Theorem periodic_check_idle (w : World) (now : Z) :
  tokenExpiresAt w = 0 \/ 120 <= tokenExpiresAt w - now ->
  periodic_refresh_check now w = mkOutcome (Normal tt) w [].
Proof.
  intros H. unfold periodic_refresh_check. js_unfold.
  destruct H as [H | H].
  - rewrite H. reflexivity.
  - cbv beta iota.
    destruct (Z.ltb_spec (tokenExpiresAt w - now) 120) as [Hlt|_]; [lia|].
    rewrite andb_false_r. reflexivity.
Qed.

Lemma periodic_check_idle_witness :
  periodic_refresh_check 100 boot = mkOutcome (Normal tt) boot [] /\
  periodic_refresh_check 100 saved_world = mkOutcome (Normal tt) saved_world [].
Proof.
  split.
  - apply (periodic_check_idle boot 100). left. reflexivity.
  - apply (periodic_check_idle saved_world 100). left. reflexivity.
Defined.

(** X15.  After a callback whose response carries no refresh token, the
    process holds none, and the periodic check can no longer refresh: at
    whatever time it runs, it sends no request to the token endpoint, so the
    access token will run out. *)
Theorem callback_without_refresh_token_stops_refresh
    (w : World) (code : string) (d : TokenResponse) (t1 t2 now : Z)
    (f : DbFault) :
  truthy_str code = true ->
  truthy_str (str_or_empty (resp_access_token d)) = true ->
  truthy_str (str_or_empty (resp_refresh_token d)) = false ->
  let w' := world (auth_callback (Some code) (BodyData d) t1 t2 f w) in
  upstoxRefreshToken w' = "" /\
  List.filter is_token_request (trace (periodic_refresh_check now w')) = [] /\
  exchanges (world (periodic_refresh_check now w')) = exchanges w.
Proof.
  intros Hc Ha Hr. destruct w as [a r e ws fc rt d0 so ch ti n ex lq].
  assert (Hrt : str_or_empty (resp_refresh_token d) = "").
  { unfold truthy_str in Hr. apply negb_false_iff in Hr.
    now apply String.eqb_eq in Hr. }
  cbv zeta. unfold periodic_refresh_check. js_unfold. cbn.
  rewrite Hc. cbn. rewrite Ha. cbn. rewrite Hrt. cbn.
  js_cases_all; repeat split; reflexivity.
Qed.

Lemma callback_without_refresh_token_stops_refresh_witness :
  let w' := world (auth_callback (Some "code")
                     (BodyData (mkTokenResponse (Some "tok") None (Some 600)))
                     0 0 NoFault boot) in
  upstoxRefreshToken w' = "" /\
  List.filter is_token_request (trace (periodic_refresh_check 590 w')) = [].
Proof.
  cbv zeta.
  pose proof (callback_without_refresh_token_stops_refresh boot "code"
                (mkTokenResponse (Some "tok") None (Some 600)) 0 0 590 NoFault
                eq_refl eq_refl eq_refl) as (H1 & H2 & _).
  split; [exact H1 | exact H2].
Defined.

(** ** Forwarding subscriptions *)

(** X16.  For a non-empty array of symbols, whatever its elements are (they
    are not checked to be strings), [forwardSubscriptionToUpstox] returns
    true exactly when the feed socket is open; it then sends one command
    holding the array as it is, and otherwise sends nothing.  The state is
    never changed. *)
Theorem forward_nonempty_symbols
    (w : World) (x : JValue) (items : list JValue) :
  let symbols := JArr (x :: items) in
  forwardSubscriptionToUpstox symbols w =
  match upstoxWS w with
  | Some h =>
      if is_open (sockets w !! h)
      then mkOutcome (Normal true) w [SocketSend h (subscribe_command symbols)]
      else mkOutcome (Normal false) w []
  | None => mkOutcome (Normal false) w []
  end.
Proof.
  destruct w as [a r e ws fc rt d so ch ti n ex lq]. cbv zeta.
  js_unfold. cbn. unfold current_state. cbn.
  destruct ws as [h|]; cbn; [|reflexivity].
  destruct (so !! h) as [[]|] eqn:Hs; cbn; rewrite ?Hs; reflexivity.
Qed.

(** ** Subscribers joining and leaving *)

Lemma replies_to_map_absent (c : nat) (p : JValue) (l : list nat) :
  ~ In c l -> replies_to c (map (fun x => ClientSend x p) l) = [].
Proof.
  induction l as [|x l IH]; intros Hn; [reflexivity|]. cbn.
  destruct (Nat.eqb_spec x c) as [->|_].
  - exfalso. apply Hn. now left.
  - apply IH. intros Hin. apply Hn. now right.
Qed.

Lemma set_delete_absent (c : nat) (l : list nat) : ~ In c (set_delete c l).
Proof.
  unfold set_delete. intros Hin. apply filter_In in Hin as [_ Hne].
  now rewrite Nat.eqb_refl in Hne.
Qed.

Lemma open_clients_absent (c : nat) (w : World) :
  ~ In c (frontendClients w) -> ~ In c (open_clients w).
Proof.
  unfold open_clients. intros Hn Hin. apply filter_In in Hin as [Hin _].
  contradiction.
Qed.

(** X17.  A subscriber whose socket closed or errored is out of the set
    before anything else happens: no later feed message is sent to it,
    whatever the message, and the closing of its socket sends nothing to
    anyone. *)
Theorem departed_client_gets_nothing (w : World) (c : nat) (m : Frame) :
  let closed := on_frontend_close c w in
  let errored := on_frontend_error c w in
  ~ In c (frontendClients (world closed)) /\
  ~ In c (frontendClients (world errored)) /\
  replies_to c (trace (on_upstox_message m (world closed))) = [] /\
  replies_to c (trace (on_upstox_message m (world errored))) = [] /\
  trace closed = [Log "Frontend client disconnected"] /\
  trace errored = [LogErr "Frontend WS error"; ClientClose c].
Proof.
  cbv zeta.
  assert (Hc : frontendClients (world (on_frontend_close c w)) =
               set_delete c (frontendClients w) /\
               trace (on_frontend_close c w) =
               [Log "Frontend client disconnected"]).
  { destruct w. split; reflexivity. }
  assert (He : frontendClients (world (on_frontend_error c w)) =
               set_delete c (frontendClients w) /\
               trace (on_frontend_error c w) =
               [LogErr "Frontend WS error"; ClientClose c]).
  { destruct w as [a r e ws fc rt d so ch ti n ex lq].
    unfold on_frontend_error. js_unfold. cbn.
    destruct (ch !! c) as [[]|]; cbn; split; reflexivity. }
  destruct Hc as (Hc & Htc). destruct He as (He & Hte).
  rewrite !on_upstox_message_outcome. cbn [trace].
  refine (conj _ (conj _ (conj _ (conj _ (conj _ _))))).
  - rewrite Hc. apply set_delete_absent.
  - rewrite He. apply set_delete_absent.
  - apply replies_to_map_absent, open_clients_absent.
    rewrite Hc. apply set_delete_absent.
  - apply replies_to_map_absent, open_clients_absent.
    rewrite He. apply set_delete_absent.
  - exact Htc.
  - exact Hte.
Qed.

(** X18.  A frontend that connects is in the set at once: every later feed
    message is sent to it, and the subscribers that were receiving go on
    receiving. *)
Theorem new_client_gets_feed (w : World) (m : Frame) :
  let o := on_frontend_connection w in
  let c := length (channels w) in
  completion o = Normal c /\
  In (ClientSend c (upstox_payload m))
     (trace (on_upstox_message m (world o))) /\
  forall c', In c' (open_clients w) ->
    In (ClientSend c' (upstox_payload m))
       (trace (on_upstox_message m (world o))).
Proof.
  cbv zeta.
  assert (Ho : completion (on_frontend_connection w) = Normal (length (channels w)) /\
               frontendClients (world (on_frontend_connection w)) =
                 frontendClients w ++ [length (channels w)] /\
               channels (world (on_frontend_connection w)) =
                 channels w ++ [OPEN]).
  { destruct w. repeat split; reflexivity. }
  destruct Ho as (Hc & Hf & Hch).
  rewrite on_upstox_message_outcome. cbn [trace].
  split; [exact Hc|]. split.
  - apply (List.in_map (fun x => ClientSend x (upstox_payload m))).
    unfold open_clients. apply filter_In. split.
    + rewrite Hf. apply in_or_app. right. now left.
    + rewrite Hch. rewrite lookup_app_r by lia.
      rewrite Nat.sub_diag. reflexivity.
  - intros c' Hin.
    apply (List.in_map (fun x => ClientSend x (upstox_payload m))).
    unfold open_clients in *.
    apply filter_In in Hin as [Hin Hop]. apply filter_In. split.
    + rewrite Hf. apply in_or_app. now left.
    + rewrite Hch. destruct (channels w !! c') as [s|] eqn:Hl; [|discriminate].
      rewrite (lookup_app_l_Some _ _ _ _ Hl). exact Hop.
Qed.

(** ** Errors, closes and reconnects *)



(** X20.  From an open feed with no timer pending, an error, the close
    that follows it and the firing of the timer the close set lead to
    exactly one reconnect: one timer is set, 5000 ms, and is gone when it
    fires; one socket is opened, with the access token held, and becomes the
    current one; the old socket is closed. *)
Theorem error_close_timeout_reconnects (w : World) (h : nat) :
  truthy_str (upstoxAccessToken w) = true ->
  upstoxWS w = Some h ->
  sockets w !! h = Some OPEN ->
  timeouts w = [] ->
  let o := run [UpstoxError h; UpstoxClose h;
                ReconnectTimeout (timersCreated w)] w in
  completion o = Normal tt /\
  sockets (world o) = <[h := CLOSED]> (sockets w) ++ [CONNECTING] /\
  upstoxWS (world o) = Some (length (sockets w)) /\
  timeouts (world o) = [] /\
  reconnectTimer (world o) = None /\
  List.filter is_open_socket (trace o) =
    [OpenSocket (length (sockets w)) (upstoxAccessToken w)] /\
  List.filter is_set_timeout (trace o) =
    [SetTimeout (timersCreated w) 5000].
Proof.
  intros Ht Hw Hs Hti. destruct w as [a r e ws fc rt d so ch ti n ex lq].
  cbn in Ht, Hw, Hs, Hti. subst ws ti. cbv zeta.
  assert (Hlt : (h < length so)%nat) by (eapply lookup_lt_Some; eauto).
  unfold run. cbn [for_of]. js_unfold_all. cbn. rewrite Hs. cbn. rewrite Hs. cbn.
  rewrite list_lookup_insert_eq by exact Hlt. cbn.
  rewrite Nat.eqb_refl. cbn. rewrite Ht. cbn.
  unfold current_state. cbn.
  rewrite list_insert_insert_eq.
  rewrite list_lookup_insert_eq by exact Hlt. cbn.
  rewrite ?Nat.eqb_refl, !length_insert. cbn.
  repeat split; reflexivity.
Qed.

Lemma error_close_timeout_reconnects_witness :
  sockets (world (run [UpstoxError 0; UpstoxClose 0; ReconnectTimeout 0]
                      relay_ready)) = [CLOSED; CONNECTING].
Proof.
  exact (proj1 (proj2 (error_close_timeout_reconnects relay_ready 0
                         eq_refl eq_refl eq_refl eq_refl))).
Defined.

(** X21.  A reconnect timer that fires when the feed has meanwhile been
    opened again reconnects nothing: the timer is gone, no socket is opened
    and the open socket stays the current one. *)
Theorem stale_timeout_opens_nothing (w : World) (t : nat) :
  pending t (timeouts w) = true ->
  truthy_str (upstoxAccessToken w) = true ->
  is_open (current_state w) = true ->
  let o := deliver (ReconnectTimeout t) w in
  trace o = [Log "Reconnecting to Upstox WS..."; Log "Upstox WS already connected"] /\
  sockets (world o) = sockets w /\
  upstoxWS (world o) = upstoxWS w /\
  pending t (timeouts (world o)) = false.
Proof.
  intros Hp Ht Ho. destruct w as [a r e ws fc rt d so ch ti n ex lq].
  cbn in Hp, Ht. unfold current_state in Ho. cbn in Ho. cbv zeta.
  js_unfold_all. cbn. unfold pending in Hp. rewrite Hp. cbn.
  rewrite Ht. cbn. unfold current_state. cbn. rewrite Ho. cbn.
  repeat split; try reflexivity. apply pending_cleared.
Qed.

Lemma stale_timeout_opens_nothing_witness :
  let w := world (run (two_closes ++
                       [AuthCallback (Some "code") token_reply 30 30 NoFault;
                        UpstoxOpen 2]) boot) in
  pending 0 (timeouts w) = true /\
  sockets (world (deliver (ReconnectTimeout 0) w)) = [CLOSED; CLOSED; OPEN].
Proof.
  cbv zeta. split; [reflexivity|].
  exact (proj1 (proj2 (stale_timeout_opens_nothing
                         (world (run (two_closes ++
                                      [AuthCallback (Some "code") token_reply 30 30 NoFault;
                                       UpstoxOpen 2]) boot))
                         0 eq_refl eq_refl eq_refl))).
Defined.

(** ** Saving and restarting *)

(** X22.  What [saveTokens] is given survives a restart: a process that
    starts on the table left by a successful save loads the access token,
    the refresh token (the empty string when none was saved) and the expiry
    [t + expires_in], with 3600 by default, whatever else startup goes on to
    do. *)
Theorem saved_credential_survives_restart
    (a r : string) (x : option Z) (t now : Z) (w w0 : World) :
  db w0 = db (world (saveTokens NoFault t (mkTokenArgs a (Some r) x) w)) ->
  credential (world (init now w0)) = (a, r, t + or_num x 3600).
Proof.
  intros Hd. destruct w0 as [a0 r0 e0 ws fc rt d so ch ti n ex lq].
  cbn in Hd. subst d.
  unfold init, loadTokens. js_unfold.
  destruct (truthy_str r) eqn:Er.
  - cbn. rewrite ?Er. cbn. rewrite ?or_str_empty.
    js_cases; rewrite ?or_str_empty; reflexivity.
  - assert (r = "") as ->.
    { unfold truthy_str in Er. apply negb_false_iff in Er.
      now apply String.eqb_eq in Er. }
    cbn. rewrite ?or_str_empty.
    js_cases; rewrite ?or_str_empty; reflexivity.
Qed.

Lemma saved_credential_survives_restart_witness :
  credential (world (init 500
    (set_db (db (world (saveTokens NoFault 100 (mkTokenArgs "tok" (Some "") None)
                          saved_world))) boot))) =
  ("tok", "", 3700).
Proof.
  apply (saved_credential_survives_restart "tok" "" None 100 500 saved_world).
  reflexivity.
Defined.

Lemma new_client_gets_feed_witness :
  In (ClientSend 0 (upstox_payload (mkFrame "tick" None)))
     (trace (on_upstox_message (mkFrame "tick" None)
               (world (on_frontend_connection
                         (world (on_frontend_connection boot)))))).
Proof.
  apply (proj2 (proj2 (new_client_gets_feed
                         (world (on_frontend_connection boot))
                         (mkFrame "tick" None)))).
  cbn. left. reflexivity.
Defined.

(** ** Quote queries over the socket *)

(** X23.  An [ltp] query with a truthy symbol is dealt with in any state (no
    access token is asked for) and answered exactly once.  When the symbol
    cannot be encoded for the request (an object with a toString field, a
    string with a surrogate that is not half of a pair), no request is made
    and the failure reply is sent at once.  Otherwise the request is made
    at once and the reply is sent when it settles: the upstream body with
    the symbol when there is a body, the failure reply when there is none.
    The reply goes to the subscriber that asked and the state ends as it
    began. *)
Theorem ltp_query_answered_once
    (w : World) (c : nat) (txt : string) (symbol : JValue)
    (o : option JValue) :
  truthy symbol = true ->
  let m := mkFrame txt (Some (JObj [("action", JStr "ltp");
                                    ("symbol", symbol)])) in
  let asked := on_frontend_message c m w in
  let settled := deliver (LtpSettled (length (ltpQueries w)) o) (world asked) in
  if encodeURIComponent_throws symbol then
    trace asked = [ClientSend c reply_ltp_failed] /\
    world asked = w
  else
    trace asked = [LtpRequest c symbol] /\
    ltpQueries (world asked) = ltpQueries w ++ [(c, symbol)] /\
    trace settled = [ClientSend c (ltp_reply symbol o)] /\
    world settled = w.
Proof.
  intros Hs. destruct w as [a r e ws fc rt d so ch ti n ex lq]. cbv zeta.
  unfold encodeURIComponent_throws. js_unfold_all. cbn. rewrite Hs. cbn.
  destruct (String_throws symbol); cbn; [split; reflexivity|].
  destruct (String_malformed symbol); cbn; [split; reflexivity|].
  rewrite lookup_app_r by lia. rewrite Nat.sub_diag. cbn.
  rewrite delete_last.
  destruct o; cbn; repeat split; reflexivity.
Qed.

Lemma ltp_query_answered_once_witness :
  trace (on_frontend_message 0
           (mkFrame "" (Some (JObj [("action", JStr "ltp");
                                     ("symbol", JStr "NSE_EQ|RELIANCE")])))
           one_client) =
    [LtpRequest 0 (JStr "NSE_EQ|RELIANCE")] /\
  trace (on_frontend_message 0
           (mkFrame "" (Some (JObj [("action", JStr "ltp");
                                     ("symbol", JObj [("toString", JNum 1)])])))
           one_client) =
    [ClientSend 0 reply_ltp_failed].
Proof.
  split.
  - exact (proj1 (ltp_query_answered_once one_client 0 ""
                    (JStr "NSE_EQ|RELIANCE") None eq_refl)).
  - exact (proj1 (ltp_query_answered_once one_client 0 ""
                    (JObj [("toString", JNum 1)]) None eq_refl)).
Defined.

(** ** The simulated-candle server *)

Lemma Sim_length_removelast {A} (l : list A) (x y : A) :
  last l = Some y -> length (removelast l ++ [x]) = length l.
Proof.
  intros Hl. rewrite length_app, removelast_firstn_len, length_take. cbn.
  destruct l; [discriminate | cbn; lia].
Qed.

Lemma Sim_Forall_removelast {A} (P : A -> Prop) (l : list A) :
  List.Forall P l -> List.Forall P (removelast l).
Proof.
  induction l as [|x l IH]; intros H; [constructor|].
  inversion H; subst. cbn. destruct l; [constructor|].
  constructor; [assumption | now apply IH].
Qed.

Lemma Sim_last_In {A} (l : list A) (x : A) : last l = Some x -> In x l.
Proof.
  induction l as [|y l IH]; [discriminate|].
  cbn. destruct l; [intros [= ->]; now left | intros H; right; now apply IH].
Qed.

(** What one tick does to the history: the candle list keeps its length
    when the tick falls in the minute of the last candle, and otherwise
    grows by one candle, the oldest being dropped beyond 2000; well-formed
    candles stay well-formed. *)
Lemma Sim_tick_history (now price : Z) (s : Sim.State) :
  let h' := Sim.history (fst (Sim.tick now price s)) in
  ((length (Sim.history s) <= 2000)%nat -> (length h' <= 2000)%nat) /\
  (length (Sim.history s) <= length h')%nat /\
  (List.Forall Sim.well_formed (Sim.history s) ->
   List.Forall Sim.well_formed h').
Proof.
  destruct s as [h lp cl]. cbv zeta.
  unfold Sim.tick. cbn [Sim.history Sim.clients].
  set (c := Sim.mkCandle (now / 60 * 60) price price price price).
  assert (Hc : Sim.well_formed c) by (unfold Sim.well_formed; cbn; lia).
  assert (Hfresh :
    let kept := if Nat.ltb 2000 (length (h ++ [c])) then tl (h ++ [c])
                else h ++ [c] in
    ((length h <= 2000)%nat -> (length kept <= 2000)%nat) /\
    (length h <= length kept)%nat /\
    (List.Forall Sim.well_formed h -> List.Forall Sim.well_formed kept)).
  { cbv zeta.
    destruct (Nat.ltb_spec 2000 (length (h ++ [c]))) as [Hgt|Hle];
      rewrite length_app in *; cbn [length] in *.
    - destruct h as [|c0 h0]; [cbn [length] in Hgt; lia|].
      change (tl ((c0 :: h0) ++ [c])) with (h0 ++ [c]).
      rewrite length_app. cbn [length] in *.
      split; [intros; lia | split; [lia|]].
      intros Hwf. inversion Hwf; subst. apply Forall_app. split; [assumption|].
      constructor; [exact Hc | constructor].
    - split; [intros; lia | split; [lia|]].
      intros Hwf. apply Forall_app. split; [assumption|].
      constructor; [exact Hc | constructor]. }
  destruct (last h) as [lc|] eqn:Hl; [|exact Hfresh].
  destruct (Z.eqb (Sim.time lc) (now / 60 * 60)); cbn [negb fst Sim.history];
    [|exact Hfresh].
  rewrite (Sim_length_removelast h _ lc Hl).
  split; [intros; lia | split; [lia|]].
  intros Hwf. apply Forall_app. split; [now apply Sim_Forall_removelast|].
  constructor; [|constructor].
  apply Sim_last_In in Hl. rewrite List.Forall_forall in Hwf.
  specialize (Hwf lc Hl). unfold Sim.well_formed in *. cbn. lia.
Qed.

Lemma Sim_run_cons (e : Sim.Event) (events : list Sim.Event) (s : Sim.State) :
  fst (Sim.run (e :: events) s) = fst (Sim.run events (fst (Sim.step e s))).
Proof.
  cbn [Sim.run]. destruct (Sim.step e s) as [s1 out1]. cbn [fst].
  destruct (Sim.run events s1). reflexivity.
Qed.

Lemma Sim_step_history (e : Sim.Event) (s : Sim.State) :
  let h' := Sim.history (fst (Sim.step e s)) in
  ((length (Sim.history s) <= 2000)%nat -> (length h' <= 2000)%nat) /\
  (List.Forall Sim.well_formed (Sim.history s) ->
   List.Forall Sim.well_formed h').
Proof.
  destruct e as [|now price].
  - cbn. split; auto.
  - pose proof (Sim_tick_history now price s) as (H1 & _ & H3).
    split; assumption.
Qed.

(** X24.  The history of the simulated server never holds more than 2000
    candles: if it holds at most 2000, it holds at most 2000 after any run
    of ticks and connections, whatever the times and prices. *)
Theorem Sim_history_bounded (events : list Sim.Event) (s : Sim.State) :
  (length (Sim.history s) <= 2000)%nat ->
  (length (Sim.history (fst (Sim.run events s))) <= 2000)%nat.
Proof.
  revert s. induction events as [|e events IH]; intros s Hs; [exact Hs|].
  rewrite Sim_run_cons. apply IH. now apply Sim_step_history.
Qed.

Lemma Sim_history_bounded_witness :
  (length (Sim.history (fst (Sim.run [Sim.Ticked 120 100; Sim.Connection;
                                      Sim.Ticked 121 101; Sim.Ticked 180 99]
                                     (Sim.mkState [] 100 []))))
   <= 2000)%nat.
Proof.
  apply (Sim_history_bounded _ (Sim.mkState [] 100 [])). cbn [Sim.history length].
  lia.
Defined.

(** X25.  Candles stay well-formed: if in every candle of the history the
    low is at most the open and the close, and these at most the high, the
    same holds after any run of ticks and connections, whatever the times
    and prices. *)
Theorem Sim_candles_stay_well_formed
    (events : list Sim.Event) (s : Sim.State) :
  List.Forall Sim.well_formed (Sim.history s) ->
  List.Forall Sim.well_formed (Sim.history (fst (Sim.run events s))).
Proof.
  revert s. induction events as [|e events IH]; intros s Hs; [exact Hs|].
  rewrite Sim_run_cons. apply IH. now apply Sim_step_history.
Qed.

Lemma Sim_candles_stay_well_formed_witness :
  List.Forall Sim.well_formed
    (Sim.history (fst (Sim.run [Sim.Ticked 120 100; Sim.Ticked 121 105;
                                Sim.Ticked 122 95]
                               (Sim.mkState [] 100 [])))).
Proof.
  apply (Sim_candles_stay_well_formed _ (Sim.mkState [] 100 [])). constructor.
Defined.

(** X26.  One tick sends every open client exactly two messages, in this
    order to all of them: the tick, then the candle of the current minute,
    as a new candle or as an update of the last one.  After the tick that
    candle is the last of the history, its time is the start of the minute
    of the tick, its close is the price of the tick and the price lies
    between its low and its high. *)
Theorem Sim_tick_broadcast (now price : Z) (s : Sim.State) :
  let s' := fst (Sim.tick now price s) in
  let out := snd (Sim.tick now price s) in
  let to_open (m : Sim.Message) :=
    map (fun i => (i, m)) (Sim.open_handles (Sim.clients s)) in
  exists c,
    last (Sim.history s') = Some c /\
    Sim.time c = now / 60 * 60 /\
    Sim.close c = price /\
    Sim.low c <= price <= Sim.high c /\
    Sim.lastPrice s' = price /\
    Sim.clients s' = Sim.clients s /\
    (out = to_open (Sim.Tick now price) ++ to_open (Sim.NewCandle c) \/
     out = to_open (Sim.Tick now price) ++ to_open (Sim.UpdateCandle c)).
Proof.
  destruct s as [h lp cl]. cbv zeta.
  unfold Sim.tick, Sim.broadcastJSON. cbn [Sim.history Sim.clients].
  set (c := Sim.mkCandle (now / 60 * 60) price price price price).
  assert (Hfresh :
    last (if Nat.ltb 2000 (length (h ++ [c])) then tl (h ++ [c])
          else h ++ [c]) = Some c).
  { destruct (Nat.ltb_spec 2000 (length (h ++ [c]))) as [Hgt|Hle].
    - rewrite length_app in Hgt. cbn [length] in Hgt.
      destruct h as [|c0 h0]; [cbn [length] in Hgt; lia|].
      change (tl ((c0 :: h0) ++ [c])) with (h0 ++ [c]). apply last_snoc.
    - apply last_snoc. }
  destruct (last h) as [lc|] eqn:Hl.
  - destruct (Z.eqb_spec (Sim.time lc) (now / 60 * 60)) as [He|Hne];
      cbn [negb fst snd Sim.history Sim.lastPrice Sim.clients].
    + eexists. rewrite last_snoc. cbn [Sim.time Sim.close Sim.low Sim.high].
      split; [reflexivity|]. split; [exact He|].
      split; [reflexivity|]. split; [cbn [Sim.low Sim.high c]; lia|].
      split; [reflexivity|]. split; [reflexivity|]. right. reflexivity.
    + exists c. rewrite Hfresh. cbn [Sim.time Sim.close Sim.low Sim.high c].
      split; [reflexivity|]. split; [reflexivity|].
      split; [reflexivity|]. split; [cbn [Sim.low Sim.high c]; lia|].
      split; [reflexivity|]. split; [reflexivity|]. left. reflexivity.
  - exists c. cbn [fst snd Sim.history Sim.lastPrice Sim.clients].
    rewrite Hfresh. cbn [Sim.time Sim.close Sim.low Sim.high c].
    split; [reflexivity|]. split; [reflexivity|].
    split; [reflexivity|]. split; [cbn [Sim.low Sim.high c]; lia|].
    split; [reflexivity|]. split; [reflexivity|]. left. reflexivity.
Qed.

(** X27.  A client that connects is sent the whole current history, and
    nothing is sent to anyone else; from then on every tick reaches it. *)
Theorem Sim_connection_then_ticks (now price : Z) (s : Sim.State) :
  let c := length (Sim.clients s) in
  let s' := fst (Sim.on_connection s) in
  snd (Sim.on_connection s) = [(c, Sim.History (Sim.history s))] /\
  Sim.history s' = Sim.history s /\
  In (c, Sim.Tick now price) (snd (Sim.tick now price s')).
Proof.
  destruct s as [h lp cl]. cbv zeta. cbn [Sim.on_connection fst snd Sim.history
    Sim.clients Sim.lastPrice].
  split; [reflexivity|]. split; [reflexivity|].
  assert (Hin : In (length cl, Sim.Tick now price)
                   (Sim.broadcastJSON (Sim.Tick now price)
                      (Sim.mkState h lp (cl ++ [OPEN])))).
  { unfold Sim.broadcastJSON, Sim.open_handles. cbn [Sim.clients].
    apply (List.in_map (fun i => (i, Sim.Tick now price))).
    apply filter_In. split.
    - apply in_seq. rewrite length_app. cbn [length]. lia.
    - rewrite lookup_app_r by lia. rewrite Nat.sub_diag. reflexivity. }
  unfold Sim.tick. cbn [Sim.history Sim.clients].
  destruct (last h) as [lc|];
    [destruct (negb (Z.eqb (Sim.time lc) (now / 60 * 60)))|];
    cbn [snd]; apply in_or_app; left; exact Hin.
Qed.
